(** * AI Snake Agents front end: the playback / replay state machine of App.tsx

    A shallow embedding of the React component tree of [App.tsx]
    ([ModelSelect], [Grid], [App]) and of the handlers wired to its controls.

    - React state cells ([useState]) are the fields of the record [App];
      a handler is a composition of setters, applied in source order.
    - [useEffect] hooks are functions run by [commit] after a batch of
      updates, exactly when one of the listed dependencies changed.
    - Closures that outlive a render (the [setInterval] callback and the
      [async] body of [loadNewGame]) carry the values they captured.
    - A JavaScript [TypeError] (a field read on [undefined]) is [None].
    - JavaScript numbers holding integers are [Z]; the only fractional
      quantities (the average and the colour lightness) are exact rationals. *)

From Stdlib Require Import ZArith List String Ascii Bool QArith Qminmax Lia.
From Stdlib Require Import DecimalString Lqa.
Import ListNotations.
Open Scope string_scope.
Open Scope Z_scope.

Set Implicit Arguments.

(* ================================================================== *)
(** ** JavaScript array and string primitives used by the source *)

Module JS.

(** [a.length] *)
Definition length {A} (a : list A) : Z := Z.of_nat (List.length a).

(** [a[i]] for an integer [i]; [None] stands for [undefined]. *)
Definition get {A} (a : list A) (i : Z) : option A :=
  if i <? 0 then None else nth_error a (Z.to_nat i).

Fixpoint indexOf_from (a : list Z) (x : Z) (k : Z) : Z :=
  match a with
  | [] => -1
  | y :: a' => if y =? x then k else indexOf_from a' x (k + 1)
  end.

(** [a.indexOf(x)] *)
Definition indexOf (a : list Z) (x : Z) : Z := indexOf_from a x 0.

(** [Array.from({length: n}, (_, i) => f(i))] *)
Definition from_length {A} (n : Z) (f : Z -> A) : list A :=
  map (fun k => f (Z.of_nat k)) (seq 0 (Z.to_nat n)).

(** [xs.includes(x)] on an array of strings *)
Definition mem (xs : list string) (x : string) : bool :=
  existsb (String.eqb x) xs.

(** [s.includes(sub)] on strings *)
Fixpoint includes (s sub : string) : bool :=
  String.prefix sub s ||
  match s with
  | EmptyString => false
  | String _ s' => includes s' sub
  end.

Definition isDigit (c : ascii) : bool :=
  ((48 <=? nat_of_ascii c) && (nat_of_ascii c <=? 57))%nat.

Fixpoint allDigits (s : string) : bool :=
  match s with
  | EmptyString => true
  | String c s' => isDigit c && allDigits s'
  end.

(** [/^\d+$/.test(s)] *)
Definition test_digits (s : string) : bool :=
  negb (s =? "")%string && allDigits s.

(** [s.startsWith('0')] *)
Definition startsWith0 (s : string) : bool :=
  match s with
  | String c _ => Ascii.eqb c "0"%char
  | EmptyString => false
  end.

Definition digit (c : ascii) : Z := Z.of_nat (nat_of_ascii c) - 48.

Fixpoint Number_from (acc : Z) (s : string) : Z :=
  match s with
  | EmptyString => acc
  | String c s' => Number_from (10 * acc + digit c) s'
  end.

(** [Number(s)] on a string of decimal digits.  The source only compares
    the result with 999; rounding to a double is monotone and 999, 1000
    are doubles, so the comparison agrees with the exact integer. *)
Definition Number (s : string) : Z := Number_from 0 s.

(** [String(n)] for an integer *)
Definition toString (n : Z) : string := NilZero.string_of_int (Z.to_int n).

End JS.

(** Sequencing of computations that may throw. *)
Definition bind {A B} (m : option A) (f : A -> option B) : option B :=
  match m with
  | Some a => f a
  | None => None
  end.

Notation "x <- m ;; k" := (bind m (fun x => k))
  (at level 61, m at next level, right associativity).

Fixpoint mapM {A B} (f : A -> option B) (l : list A) : option (list B) :=
  match l with
  | [] => Some []
  | a :: l' => b <- f a ;; bs <- mapM f l' ;; Some (b :: bs)
  end.

(* ================================================================== *)
(** ** Data model: [GameState] and [TableResult] *)

Record GameState := mkGameState {
  snake : list Z;
  fruit : Z;
  won : bool;
  died : bool
}.

Module TableResult.
Record t := mk {
  agent : option string;   (* [nameMap[agent]], [None] when not in the map *)
  gridSize : string;
  train : string;
  moveCount : Z;
  fruitCount : Z;
  finalLength : Z;
  avgMove : Q;             (* the quotient that the source prints with [toFixed(3)] *)
  outcome : string;
  replay : list GameState;
  agentCode : string;
  replaySize : Z
}.
End TableResult.

Definition nameMap (agent : string) : option string :=
  if (agent =? "a*")%string then Some "A*"
  else if (agent =? "ql")%string then Some "Q-Learning"
  else if (agent =? "apx-ql")%string then Some "Approx. QL"
  else if (agent =? "deep-ql")%string then Some "Deep QL"
  else None.

(** The floor [1e-9] added to the fruit count. *)
Definition floor_eps : Q := 1 # 1000000000.

(** [createTableResult]; [gridSize] is the state cell the closure reads.
    Reading [data[endIndex].snake] throws when [data[endIndex]] is
    [undefined]. *)
Definition createTableResult (gridSize : Z) (agent eps : string)
    (endIndex : Z) (data : list GameState) : option TableResult.t :=
  last <- JS.get data endIndex ;;
  Some (TableResult.mk
    (nameMap agent)
    (JS.toString (gridSize - 2) ++ "x" ++ JS.toString (gridSize - 2))
    eps
    endIndex
    (JS.length (snake last) - 1)
    (JS.length (snake last))
    (inject_Z endIndex / (inject_Z (JS.length (snake last) - 1) + floor_eps))%Q
    (if won last then "Won" else "Lost")
    data
    agent
    gridSize).

(* ================================================================== *)
(** ** [ModelSelect]: default training budget and the seed input *)

(** Body of the effect [useEffect(..., [agent])]: the value of [eps] after
    the effect ran with the props [agent] and [eps]. *)
Definition epsEffect (agent eps : string) : string :=
  if (agent =? "a*")%string then "N/A"
  else if JS.includes agent "deep" && negb (JS.mem ["1k"; "3k"; "5k"] eps)
       then "1k"
  else if negb (JS.mem ["50k"; "75k"; "100k"] eps) then "50k"
  else eps.

(** [onChange] of the seed input: the stored seed after the input reports
    the text [value]. *)
Definition onChange (seed value : string) : string :=
  if (value =? "")%string then ""
  else if negb (JS.test_digits value) then seed
  else if (JS.length (list_ascii_of_string value) >? 1) && JS.startsWith0 value
       then seed
  else if JS.Number value >? 999 then seed
  else value.

(* ================================================================== *)
(** ** [Grid]: rendering one lane *)

(** Lightness (in percent) of the colour returned by [snakeColor]; hue and
    saturation are the constants 210 and 90.  The model is that of a
    positive [maxScale], the only case [generateGrid] evaluates: for
    [maxScale = 0] the source divides by zero (NaN or an infinity), which the
    rationals do not have. *)
Definition snakeColor (index maxScale : Z) : Q :=
  let t := Qmax 0 (Qmin 1 (inject_Z (maxScale - index) / inject_Z maxScale)) in
  (30 + t * (90 - 30))%Q.

(** When two grids are used and one game ends early, freeze on the last move. *)
Definition effectiveStep (timeStep : Z) (gameStates : list GameState) : Z :=
  if timeStep >=? JS.length gameStates then JS.length gameStates - 1
  else timeStep.

Inductive CellClass :=
| Wall         (* "bg-black border-cyan-700/80" *)
| Fruit        (* "bg-red-500" *)
| GrassDark    (* "bg-green-500/90" *)
| GrassLight.  (* "bg-green-300" *)

Record Cell := mkCell {
  className : CellClass;
  (* [None]: no inline style; [Some c]: [{backgroundColor: c}] with
     [c = snakeColors[snakeIndex]], itself [None] when out of the gradient *)
  style : option (option Q)
}.

Record GridView := mkGridView {
  cells : list Cell;
  moves : Z;      (* "Moves: {effectiveStep}" *)
  fruits : Z      (* "Fruits: {fruitCount}" *)
}.

Section Grid.
Variables (gridSize timeStep : Z) (gameStates : list GameState).

Let step := effectiveStep timeStep gameStates.

(** [row] is [Math.floor(i / gridSize)] and [col] is [i % gridSize]; the
    component is rendered with a positive [gridSize]. *)
Definition cellClass (i : Z) : option CellClass :=
  let row := i / gridSize in
  let col := Z.rem i gridSize in
  let isWall := (row =? 0) || (row =? gridSize - 1)
                || (col =? 0) || (col =? gridSize - 1) in
  if isWall then Some Wall
  else
    isFruit <- (if JS.length gameStates >? 0
                then g <- JS.get gameStates step ;; Some (i =? fruit g)
                else Some false) ;;
    if isFruit then Some Fruit
    else Some (if Z.rem i 2 =? 0 then GrassLight else GrassDark).

Definition generateGrid : option (list Cell) :=
  let maxSnake := (gridSize - 2) * (gridSize - 2) in
  let snakeColors :=
    rev (JS.from_length maxSnake (fun i => snakeColor (i + 1) maxSnake)) in
  mapM (fun i =>
          snakeIndex <- (if JS.length gameStates =? 0 then Some (-1)
                         else g <- JS.get gameStates step ;;
                              Some (JS.indexOf (snake g) i)) ;;
          c <- cellClass i ;;
          Some (mkCell c (if negb (snakeIndex =? -1)
                          then Some (JS.get snakeColors snakeIndex)
                          else None)))
       (JS.from_length (gridSize * gridSize) (fun i => i)).

(** One render of the component followed by its effect. *)
Definition Grid : option GridView :=
  fruitCount <- (if JS.length gameStates =? 0 then Some 0
                 else g <- JS.get gameStates step ;;
                      Some (JS.length (snake g) - 1)) ;;
  grid <- generateGrid ;;
  Some (mkGridView grid step fruitCount).
End Grid.

(* ================================================================== *)
(** ** [App]: the state cells *)

Record App := mkApp {
  gridSize : Z;
  twoGrids : bool;
  gameStates1 : list GameState;
  gameStates2 : list GameState;
  agent1 : string;
  agent2 : string;
  eps1 : string;
  eps2 : string;
  seed1 : string;
  seed2 : string;
  playing : bool;
  loading : bool;
  speed : Z;
  tableRes : list TableResult.t;
  timeStep : Z;
  serverAwake : bool
}.

Definition setGridSize v s := mkApp v (twoGrids s) (gameStates1 s) (gameStates2 s) (agent1 s) (agent2 s) (eps1 s) (eps2 s) (seed1 s) (seed2 s) (playing s) (loading s) (speed s) (tableRes s) (timeStep s) (serverAwake s).
Definition setTwoGrids v s := mkApp (gridSize s) v (gameStates1 s) (gameStates2 s) (agent1 s) (agent2 s) (eps1 s) (eps2 s) (seed1 s) (seed2 s) (playing s) (loading s) (speed s) (tableRes s) (timeStep s) (serverAwake s).
Definition setGameStates1 v s := mkApp (gridSize s) (twoGrids s) v (gameStates2 s) (agent1 s) (agent2 s) (eps1 s) (eps2 s) (seed1 s) (seed2 s) (playing s) (loading s) (speed s) (tableRes s) (timeStep s) (serverAwake s).
Definition setGameStates2 v s := mkApp (gridSize s) (twoGrids s) (gameStates1 s) v (agent1 s) (agent2 s) (eps1 s) (eps2 s) (seed1 s) (seed2 s) (playing s) (loading s) (speed s) (tableRes s) (timeStep s) (serverAwake s).
Definition setAgent1 v s := mkApp (gridSize s) (twoGrids s) (gameStates1 s) (gameStates2 s) v (agent2 s) (eps1 s) (eps2 s) (seed1 s) (seed2 s) (playing s) (loading s) (speed s) (tableRes s) (timeStep s) (serverAwake s).
Definition setAgent2 v s := mkApp (gridSize s) (twoGrids s) (gameStates1 s) (gameStates2 s) (agent1 s) v (eps1 s) (eps2 s) (seed1 s) (seed2 s) (playing s) (loading s) (speed s) (tableRes s) (timeStep s) (serverAwake s).
Definition setEps1 v s := mkApp (gridSize s) (twoGrids s) (gameStates1 s) (gameStates2 s) (agent1 s) (agent2 s) v (eps2 s) (seed1 s) (seed2 s) (playing s) (loading s) (speed s) (tableRes s) (timeStep s) (serverAwake s).
Definition setEps2 v s := mkApp (gridSize s) (twoGrids s) (gameStates1 s) (gameStates2 s) (agent1 s) (agent2 s) (eps1 s) v (seed1 s) (seed2 s) (playing s) (loading s) (speed s) (tableRes s) (timeStep s) (serverAwake s).
Definition setSeed1 v s := mkApp (gridSize s) (twoGrids s) (gameStates1 s) (gameStates2 s) (agent1 s) (agent2 s) (eps1 s) (eps2 s) v (seed2 s) (playing s) (loading s) (speed s) (tableRes s) (timeStep s) (serverAwake s).
Definition setSeed2 v s := mkApp (gridSize s) (twoGrids s) (gameStates1 s) (gameStates2 s) (agent1 s) (agent2 s) (eps1 s) (eps2 s) (seed1 s) v (playing s) (loading s) (speed s) (tableRes s) (timeStep s) (serverAwake s).
Definition setPlaying v s := mkApp (gridSize s) (twoGrids s) (gameStates1 s) (gameStates2 s) (agent1 s) (agent2 s) (eps1 s) (eps2 s) (seed1 s) (seed2 s) v (loading s) (speed s) (tableRes s) (timeStep s) (serverAwake s).
Definition setLoading v s := mkApp (gridSize s) (twoGrids s) (gameStates1 s) (gameStates2 s) (agent1 s) (agent2 s) (eps1 s) (eps2 s) (seed1 s) (seed2 s) (playing s) v (speed s) (tableRes s) (timeStep s) (serverAwake s).
Definition setSpeed v s := mkApp (gridSize s) (twoGrids s) (gameStates1 s) (gameStates2 s) (agent1 s) (agent2 s) (eps1 s) (eps2 s) (seed1 s) (seed2 s) (playing s) (loading s) v (tableRes s) (timeStep s) (serverAwake s).
Definition setTableRes v s := mkApp (gridSize s) (twoGrids s) (gameStates1 s) (gameStates2 s) (agent1 s) (agent2 s) (eps1 s) (eps2 s) (seed1 s) (seed2 s) (playing s) (loading s) (speed s) v (timeStep s) (serverAwake s).
Definition setTimeStep v s := mkApp (gridSize s) (twoGrids s) (gameStates1 s) (gameStates2 s) (agent1 s) (agent2 s) (eps1 s) (eps2 s) (seed1 s) (seed2 s) (playing s) (loading s) (speed s) (tableRes s) v (serverAwake s).

(** A batch of updates, written in source order: [s |> f |> g]. *)
Notation "s |> f" := (f s) (at level 45, left associativity, only parsing).

Inductive Lane := Lane1 | Lane2.

Definition agentOf (l : Lane) := match l with Lane1 => agent1 | Lane2 => agent2 end.
Definition epsOf (l : Lane) := match l with Lane1 => eps1 | Lane2 => eps2 end.
Definition seedOf (l : Lane) := match l with Lane1 => seed1 | Lane2 => seed2 end.
Definition gameStatesOf (l : Lane) :=
  match l with Lane1 => gameStates1 | Lane2 => gameStates2 end.
Definition setAgent (l : Lane) := match l with Lane1 => setAgent1 | Lane2 => setAgent2 end.
Definition setEps (l : Lane) := match l with Lane1 => setEps1 | Lane2 => setEps2 end.
Definition setSeed (l : Lane) := match l with Lane1 => setSeed1 | Lane2 => setSeed2 end.
Definition other (l : Lane) := match l with Lane1 => Lane2 | Lane2 => Lane1 end.

(** The first values of the state cells.  After mounting, the effects have
    run once: [serverAwake] is set, the other cells keep their first value. *)
Definition mounted : App :=
  mkApp 5 false [] [] "a*" "a*" "N/A" "N/A" "" "" false false 1 [] 0 true.

(** [maxStep] and [canStepForward], recomputed by every render. *)
Definition maxStep (s : App) : Z :=
  Z.max (JS.length (gameStates1 s)) (JS.length (gameStates2 s)) - 1.

Definition canStepForward (s : App) : bool := timeStep s <? maxStep s.

(** [resetBoard]: clear all states *)
Definition resetBoard (s : App) : App :=
  s |> setPlaying false |> setLoading false
    |> setGameStates1 [] |> setGameStates2 [] |> setTimeStep 0.

(* ================================================================== *)
(** ** Handlers of the controls (one batch of state updates each) *)

(** A [ModelSelect] for lane 2 is rendered only while [twoGrids] holds. *)
Definition rendered (l : Lane) (s : App) : bool :=
  match l with Lane1 => true | Lane2 => twoGrids s end.

(** Agent [<select>]: [resetBoard(); setAgent(e.target.value)] *)
Definition selectAgent (l : Lane) (v : string) (s : App) : App :=
  if rendered l s then s |> resetBoard |> setAgent l v else s.

(** Training [<select>] (absent for the agent "a*"):
    [resetBoard(); setEps(e.target.value)] *)
Definition selectEps (l : Lane) (v : string) (s : App) : App :=
  if rendered l s && negb (agentOf l s =? "a*")%string
  then s |> resetBoard |> setEps l v else s.

(** Seed [<input>]: [onChange] *)
Definition seedInput (l : Lane) (v : string) (s : App) : App :=
  if rendered l s then setSeed l (onChange (seedOf l s) v) s else s.

(** Grid size [<select>]: [resetBoard(); setGridSize(parseInt(e.target.value))] *)
Definition selectGridSize (v : Z) (s : App) : App :=
  s |> resetBoard |> setGridSize v.

(** "Back" *)
Definition stepBack (s : App) : App :=
  s |> setPlaying false
    |> (fun s => setTimeStep (if timeStep s >? 0 then timeStep s - 1 else timeStep s) s).

(** "Forward"; [maxStep] is the constant of the render that built the button. *)
Definition stepForward (s : App) : App :=
  let maxStep := maxStep s in
  s |> setPlaying false
    |> (fun s => setTimeStep (if timeStep s <? maxStep then timeStep s + 1 else timeStep s) s).

(** The middle button: "Play"/"Pause" while [canStepForward], else "Restart". *)
Definition playOrRestart (s : App) : App :=
  if canStepForward s then setPlaying (negb (playing s)) s
  else s |> setPlaying false |> setTimeStep 0.

(** "{speed}x Speed" *)
Definition cycleSpeed (s : App) : App :=
  setSpeed (if speed s =? 4 then 1 else speed s * 2) s.

(** "Add Grid" / "Remove Grid" *)
Definition toggleGrid (s : App) : App :=
  s |> resetBoard |> (fun s => setTwoGrids (negb (twoGrids s)) s).

(** The replay buttons "Grid 1" and "Grid 2" of a history row [res]. *)
Definition restore (l : Lane) (res : TableResult.t) (s : App) : App :=
  let mismatch := negb (gridSize s =? TableResult.replaySize res) in
  match l with
  | Lane1 =>
      s |> setPlaying false
        |> (if mismatch then setGameStates2 (TableResult.replay res) else fun s => s)
        |> setGridSize (TableResult.replaySize res)
        |> setAgent1 (TableResult.agentCode res)
        |> setEps1 (TableResult.train res)
        |> setGameStates1 (TableResult.replay res)
        |> setTimeStep 0
  | Lane2 =>
      s |> setPlaying false
        |> (if mismatch then setGameStates1 (TableResult.replay res) else fun s => s)
        |> setGridSize (TableResult.replaySize res)
        |> setTwoGrids true
        |> setAgent2 (TableResult.agentCode res)
        |> setEps2 (TableResult.train res)
        |> setGameStates2 (TableResult.replay res)
        |> setTimeStep 0
  end.

(* ================================================================== *)
(** ** Effects and the closures that outlive a render *)

(** The callback handed to [setInterval] closes over the [gameStates1] and
    [gameStates2] of the render in which the effect ran. *)
Record Interval := mkInterval {
  intervalMs : Q;
  seen1 : list GameState;
  seen2 : list GameState
}.

(** One firing of the interval callback:
    [setTimeStep(prev => prev >= max(...) - 1 ? (setPlaying(false), prev) : prev + 1)] *)
Definition tick (iv : Interval) (s : App) : App :=
  if timeStep s >=? Z.max (JS.length (seen1 iv)) (JS.length (seen2 iv)) - 1
  then setPlaying false s
  else setTimeStep (timeStep s + 1) s.

(** Body of the playback effect, run after its clean-up [clearInterval]. *)
Definition playbackEffect (s : App) : App * option Interval :=
  if negb (playing s) || (JS.length (gameStates1 s) =? 0)
  then (setPlaying false s, None)
  else (s, Some (mkInterval (500 / inject_Z (speed s))
                            (gameStates1 s) (gameStates2 s))).

(** The dependency list [[playing, speed]] of the playback effect changed. *)
Definition playbackDeps (prev next : App) : bool :=
  negb (Bool.eqb (playing prev) (playing next)) || negb (speed prev =? speed next).

(** What React does after a batch turned the state [prev] into [next]:
    every effect whose dependency list changed runs once.
    - [ModelSelect] of lane 1: dependencies [[agent]];
    - [ModelSelect] of lane 2: the same, and also when it is mounted;
    - playback effect of [App]: dependencies [[playing, speed]]. *)
Definition commit (prev : App) (timer : option Interval) (next : App)
  : App * option Interval :=
  let a := if negb (agent1 prev =? agent1 next)%string
           then setEps1 (epsEffect (agent1 next) (eps1 next)) next else next in
  let b := if twoGrids a &&
              (negb (twoGrids prev) || negb (agent2 prev =? agent2 a)%string)
           then setEps2 (epsEffect (agent2 a) (eps2 a)) a else a in
  if playbackDeps prev b then playbackEffect b else (b, timer).

(** A call of [loadNewGame] suspended at an [await]: it holds the state cells
    of the render whose button was clicked, and the first response once it
    waits for the second. *)
Record Flight := mkFlight {
  held : App;
  first : option (list GameState)
}.

(** Body of the request built by [sendRequest]. *)
Record Request := mkRequest {
  req_agent : string;
  req_eps : string;
  req_grid_size : Z;
  req_seed : string
}.

Definition requestOf (l : Lane) (h : App) : Request :=
  mkRequest (agentOf l h) (epsOf l h) (gridSize h - 2) (seedOf l h).

Record World := mkWorld {
  app : App;
  timer : option Interval;
  flights : list Flight
}.

Definition settle (w : World) (next : App) (fl : list Flight) : World :=
  let (a, t) := commit (app w) (timer w) next in mkWorld a t fl.

Definition drop_nth {A} (k : nat) (l : list A) : list A :=
  firstn k l ++ skipn (S k) l.

Definition put_nth {A} (k : nat) (x : A) (l : list A) : list A :=
  firstn k l ++ x :: skipn (S k) l.

(** "Run new game": [loadNewGame] up to its first [await]. *)
Definition loadNewGame_start (w : World) : World :=
  settle w (setLoading true (app w)) (flights w ++ [mkFlight (app w) None]).

(** [loadNewGame] resumed by the response [data] to the request of the
    [k]-th suspended call.  A throw in [createTableResult] ends the call. *)
Definition loadNewGame_resume (k : nat) (data : list GameState) (w : World)
  : World :=
  match nth_error (flights w) k with
  | None => w
  | Some f =>
      let h := held f in
      match first f with
      | None =>
          match createTableResult (gridSize h) (agent1 h) (eps1 h)
                                  (JS.length data - 1) data with
          | None => mkWorld (app w) (timer w) (drop_nth k (flights w))
          | Some result1 =>
              let s := setTableRes (result1 :: tableRes (app w)) (app w) in
              if twoGrids h
              then settle w s (put_nth k (mkFlight h (Some data)) (flights w))
              else settle w (s |> setGameStates1 data |> setLoading false
                               |> setTimeStep 0 |> setPlaying true)
                          (drop_nth k (flights w))
          end
      | Some data1 =>
          match createTableResult (gridSize h) (agent2 h) (eps2 h)
                                  (JS.length data - 1) data with
          | None => mkWorld (app w) (timer w) (drop_nth k (flights w))
          | Some result2 =>
              settle w (app w |> (fun s => setTableRes (result2 :: tableRes s) s)
                              |> setGameStates2 data
                              |> setGameStates1 data1 |> setLoading false
                              |> setTimeStep 0 |> setPlaying true)
                     (drop_nth k (flights w))
          end
      end
  end.

(** Everything that can happen to the mounted application. *)
Inductive Event :=
| AgentChosen (l : Lane) (v : string)
| EpsChosen (l : Lane) (v : string)
| SeedTyped (l : Lane) (v : string)
| GridSizeChosen (v : Z)
| RunClicked
| Responded (k : nat) (data : list GameState)
| BackClicked
| MiddleClicked
| ForwardClicked
| SpeedClicked
| ToggleClicked
| ReplayClicked (l : Lane) (row : nat)
| Ticked.

Definition handle (e : Event) (w : World) : World :=
  let ui (f : App -> App) := settle w (f (app w)) (flights w) in
  match e with
  | AgentChosen l v => ui (selectAgent l v)
  | EpsChosen l v => ui (selectEps l v)
  | SeedTyped l v => ui (seedInput l v)
  | GridSizeChosen v => ui (selectGridSize v)
  | RunClicked => loadNewGame_start w
  | Responded k data => loadNewGame_resume k data w
  | BackClicked => ui stepBack
  | MiddleClicked => ui playOrRestart
  | ForwardClicked => ui stepForward
  | SpeedClicked => ui cycleSpeed
  | ToggleClicked => ui toggleGrid
  | ReplayClicked l row =>
      match nth_error (tableRes (app w)) row with
      | Some res => ui (restore l res)
      | None => w
      end
  | Ticked =>
      match timer w with
      | Some iv => ui (tick iv)
      | None => w
      end
  end.

Definition boot : World := mkWorld mounted None [].

(** The world after the events [es], in order, starting from [w]. *)
Definition run_from (w : World) (es : list Event) : World :=
  fold_left (fun w e => handle e w) es w.

Definition run (es : list Event) : World := run_from boot es.

Inductive reachable : World -> Prop :=
| reach_boot : reachable boot
| reach_step : forall e w, reachable w -> reachable (handle e w).

(* ================================================================== *)
(** ** Specification-side vocabulary *)

(** The ceiling of the cursor as the data model words it. *)
Definition ceiling (s : App) : Z :=
  Z.max (JS.length (gameStates1 s)) (JS.length (gameStates2 s)) - 1.

(** Both lanes empty, cursor at 0, playback stopped. *)
Definition cleared (s : App) : Prop :=
  gameStates1 s = [] /\ gameStates2 s = [] /\ timeStep s = 0 /\ playing s = false.

Definition nonzeroDigit (c : ascii) : bool :=
  ((49 <=? nat_of_ascii c) && (nat_of_ascii c <=? 57))%nat.

(** The pattern [^(0|[1-9][0-9]{0,2})$], read off the regular expression. *)
Definition seedPattern (s : string) : bool :=
  match s with
  | EmptyString => false
  | String c rest =>
      (Ascii.eqb c "0"%char && (rest =? "")%string)
      || (nonzeroDigit c && JS.allDigits rest && (String.length rest <=? 2)%nat)
  end.

(** An accepted seed: empty, or a numeral of the pattern. *)
Definition seedOk (s : string) : Prop := s = "" \/ seedPattern s = true.

(** A suspended [loadNewGame] holds accepted seeds, and a first response it
    kept passed [createTableResult], so it is not empty. *)
Definition flightOk (f : Flight) : Prop :=
  seedOk (req_seed (requestOf Lane1 (held f)))
  /\ seedOk (req_seed (requestOf Lane2 (held f)))
  /\ first f <> Some [].

(** What holds of every reachable world. *)
Record Inv (w : World) : Prop := mkInv {
  inv_cursor : 0 <= timeStep (app w);
  inv_playing : playing (app w) = true -> gameStates1 (app w) <> [];
  inv_timer : playing (app w) = true <-> timer w <> None;
  inv_seed1 : seedOk (seed1 (app w));
  inv_seed2 : seedOk (seed2 (app w));
  inv_flights : Forall flightOk (flights w);
  inv_table : Forall (fun r => TableResult.replay r <> []) (tableRes (app w));
  inv_speed : speed (app w) = 1 \/ speed (app w) = 2 \/ speed (app w) = 4
}.

(** The timer callback sees the lanes of the current render. *)
Definition fresh (w : World) : Prop :=
  forall iv, timer w = Some iv ->
             seen1 iv = gameStates1 (app w) /\ seen2 iv = gameStates2 (app w).

(** Whether the [ModelSelect] effect of lane [l] runs after a batch that
    leaves [v] as the agent of that lane. *)
Definition epsEffectRuns (l : Lane) (s : App) (v : string) : bool :=
  match l with
  | Lane1 => negb (agent1 s =? v)%string
  | Lane2 => negb (twoGrids s) || negb (agent2 s =? v)%string
  end.

(** The test [isWall] of [cellClass]. *)
Definition onBorder (gridSize i : Z) : bool :=
  (i / gridSize =? 0) || (i / gridSize =? gridSize - 1)
  || (Z.rem i gridSize =? 0) || (Z.rem i gridSize =? gridSize - 1).

(** The cell [generateGrid] builds for the index [i]. *)
Definition cellOf (gridSize timeStep : Z) (gameStates : list GameState)
    (i : Z) : option Cell :=
  let step := effectiveStep timeStep gameStates in
  let maxSnake := (gridSize - 2) * (gridSize - 2) in
  let snakeColors :=
    rev (JS.from_length maxSnake (fun i => snakeColor (i + 1) maxSnake)) in
  snakeIndex <- (if JS.length gameStates =? 0 then Some (-1)
                 else g <- JS.get gameStates step ;;
                      Some (JS.indexOf (snake g) i)) ;;
  c <- cellClass gridSize timeStep gameStates i ;;
  Some (mkCell c (if negb (snakeIndex =? -1)
                  then Some (JS.get snakeColors snakeIndex)
                  else None)).

(** The budget [eps] is one the training [<select>] offers for [agent]
    ("N/A" for "a*", which has no such control). *)
Definition fits (agent eps : string) : Prop :=
  (agent = "a*" /\ eps = "N/A")
  \/ (agent = "apx-ql" /\ JS.mem ["50k"; "75k"; "100k"] eps = true)
  \/ (agent = "deep-ql" /\ JS.mem ["1k"; "3k"; "5k"] eps = true).

(** The event carries a value the rendered controls offer in the state [s],
    and is not a restore into lane 1. *)
Definition offered (s : App) (e : Event) : Prop :=
  match e with
  | AgentChosen _ v => v = "a*" \/ v = "apx-ql" \/ v = "deep-ql"
  | EpsChosen l v =>
      if JS.includes (agentOf l s) "deep"
      then JS.mem ["1k"; "3k"; "5k"] v = true
      else JS.mem ["50k"; "75k"; "100k"] v = true
  | ReplayClicked Lane1 _ => False
  | _ => True
  end.

(** Worlds reached by offered events only. *)
Inductive usual : World -> Prop :=
| usual_boot : usual boot
| usual_step : forall e w, usual w -> offered (app w) e -> usual (handle e w).

(** [n] firings of the timer in a row. *)
Definition ticks (n : nat) : list Event := repeat Ticked n.

(** The ceiling the timer callback [iv] compares the cursor with. *)
Definition cap (iv : Interval) : Z :=
  Z.max (JS.length (seen1 iv)) (JS.length (seen2 iv)) - 1.

(** Worlds reached without a response arriving while playback runs. *)
Inductive calm : World -> Prop :=
| calm_boot : calm boot
| calm_step : forall e w,
    calm w ->
    (forall k d, e = Responded k d -> playing (app w) = false) ->
    calm (handle e w).

(** The entry [createTableResult] computes from the fields of [r] itself. *)
Definition summaryOf (r : TableResult.t) : option TableResult.t :=
  createTableResult (TableResult.replaySize r) (TableResult.agentCode r)
                    (TableResult.train r)
                    (JS.length (TableResult.replay r) - 1)
                    (TableResult.replay r).

(* ================================================================== *)
(** ** Basic facts about the primitives *)

(** Case analysis on the first atomic test of a conditional. *)
Ltac split_test c :=
  lazymatch c with
  | negb ?a => split_test a
  | ?a || _ => split_test a
  | ?a && _ => split_test a
  | context [if _ then _ else _] => fail
  | true => fail
  | false => fail
  | _ => destruct c eqn:?
  end.

Ltac break_if :=
  match goal with
  | |- context [if ?c then _ else _] => split_test c
  end.

Ltac cases := repeat (break_if; cbn [orb andb negb bind]).

Ltac commit_cases :=
  unfold settle, commit, playbackEffect, playbackDeps; simpl;
  repeat (break_if; simpl); try reflexivity; try congruence.

Lemma length_nonneg {A} (a : list A) : 0 <= JS.length a.
Proof. unfold JS.length. lia. Qed.

Lemma length_zero_iff {A} (a : list A) : JS.length a = 0 <-> a = [].
Proof.
  unfold JS.length. destruct a; simpl; split; intro H;
    try reflexivity; try discriminate; lia.
Qed.

Lemma length_app_one {A} (a : list A) (x : A) :
  JS.length (a ++ [x]) = JS.length a + 1.
Proof. unfold JS.length. rewrite length_app. simpl. lia. Qed.

Lemma get_in_range {A} (a : list A) (i : Z) :
  0 <= i < JS.length a -> exists x, JS.get a i = Some x.
Proof.
  unfold JS.get, JS.length. intros [Hlo Hhi].
  destruct (i <? 0) eqn:E; [apply Z.ltb_lt in E; lia|].
  destruct (nth_error a (Z.to_nat i)) eqn:N; [eauto|].
  apply nth_error_None in N. lia.
Qed.

Lemma get_last {A} (a : list A) (x : A) :
  JS.get (a ++ [x]) (JS.length (a ++ [x]) - 1) = Some x.
Proof.
  rewrite length_app_one. unfold JS.get, JS.length.
  destruct (Z.of_nat (List.length a) + 1 - 1 <? 0) eqn:E;
    [apply Z.ltb_lt in E; lia|].
  replace (Z.to_nat (Z.of_nat (List.length a) + 1 - 1)) with (List.length a) by lia.
  rewrite nth_error_app2 by lia. rewrite Nat.sub_diag. reflexivity.
Qed.

Lemma get_empty {A} (i : Z) : JS.get (@nil A) i = None.
Proof. unfold JS.get. destruct (i <? 0); [reflexivity|]. now destruct (Z.to_nat i). Qed.

Lemma mapM_total {A B} (f : A -> option B) (l : list A) :
  (forall a, exists b, f a = Some b) -> exists bs, mapM f l = Some bs.
Proof.
  intros Hf. induction l as [|a l [bs IH]]; simpl; [eauto|].
  destruct (Hf a) as [b Hb]. rewrite Hb, IH. simpl. eauto.
Qed.

Lemma mapM_Forall {A B} (f : A -> option B) (P : B -> Prop) (l : list A) :
  (forall a b, f a = Some b -> P b) ->
  forall bs, mapM f l = Some bs -> Forall P bs.
Proof.
  intros Hf. induction l as [|a l IH]; simpl; intros bs H.
  - inversion H. constructor.
  - destruct (f a) as [b|] eqn:Fa; simpl in H; [|discriminate].
    destruct (mapM f l) as [bs'|]; simpl in H; [|discriminate].
    inversion H; subst. constructor; eauto.
Qed.

(* ================================================================== *)
(** ** What a commit can and cannot change *)

Section Commit.
Variables (w : World) (next : App) (fl : list Flight).
Let w' := settle w next fl.

Lemma settle_flights : flights w' = fl.
Proof. subst w'. commit_cases. Qed.

Lemma settle_timeStep : timeStep (app w') = timeStep next.
Proof. subst w'. commit_cases. Qed.

Lemma settle_gameStates1 : gameStates1 (app w') = gameStates1 next.
Proof. subst w'. commit_cases. Qed.

Lemma settle_gameStates2 : gameStates2 (app w') = gameStates2 next.
Proof. subst w'. commit_cases. Qed.

Lemma settle_tableRes : tableRes (app w') = tableRes next.
Proof. subst w'. commit_cases. Qed.

Lemma settle_gridSize : gridSize (app w') = gridSize next.
Proof. subst w'. commit_cases. Qed.

Lemma settle_twoGrids : twoGrids (app w') = twoGrids next.
Proof. subst w'. commit_cases. Qed.

Lemma settle_agent1 : agent1 (app w') = agent1 next.
Proof. subst w'. commit_cases. Qed.

Lemma settle_agent2 : agent2 (app w') = agent2 next.
Proof. subst w'. commit_cases. Qed.

Lemma settle_seed1 : seed1 (app w') = seed1 next.
Proof. subst w'. commit_cases. Qed.

Lemma settle_seed2 : seed2 (app w') = seed2 next.
Proof. subst w'. commit_cases. Qed.

Lemma settle_speed : speed (app w') = speed next.
Proof. subst w'. commit_cases. Qed.

Lemma settle_eps1 :
  eps1 (app w') =
  if (agent1 (app w) =? agent1 next)%string then eps1 next
  else epsEffect (agent1 next) (eps1 next).
Proof. subst w'. commit_cases. Qed.

Lemma settle_eps2 :
  eps2 (app w') =
  if twoGrids next &&
     (negb (twoGrids (app w)) || negb (agent2 (app w) =? agent2 next)%string)
  then epsEffect (agent2 next) (eps2 next) else eps2 next.
Proof. subst w'. commit_cases. Qed.

Lemma settle_playing :
  playing (app w') =
  if playbackDeps (app w) next
  then playing next && negb (JS.length (gameStates1 next) =? 0)
  else playing next.
Proof. subst w'. commit_cases. Qed.

Lemma settle_timer :
  timer w' =
  if playbackDeps (app w) next
  then if playing next && negb (JS.length (gameStates1 next) =? 0)
       then Some (mkInterval (500 / inject_Z (speed next))
                             (gameStates1 next) (gameStates2 next))
       else None
  else timer w.
Proof. subst w'. commit_cases. Qed.
End Commit.

(* ================================================================== *)
(** ** The seed input accepts exactly the pattern *)

Section Seed.
Local Open Scope nat_scope.

Lemma isDigit_range (c : ascii) :
  JS.isDigit c = true <-> 48 <= nat_of_ascii c <= 57.
Proof.
  unfold JS.isDigit. rewrite andb_true_iff, !Nat.leb_le. tauto.
Qed.

Lemma nonzeroDigit_range (c : ascii) :
  nonzeroDigit c = true <-> 49 <= nat_of_ascii c <= 57.
Proof.
  unfold nonzeroDigit. rewrite andb_true_iff, !Nat.leb_le. tauto.
Qed.

Lemma zero_char (c : ascii) :
  Ascii.eqb c "0"%char = true <-> nat_of_ascii c = 48.
Proof.
  rewrite Ascii.eqb_eq. split; intro H; [now subst|].
  rewrite <- (ascii_nat_embedding c), H. reflexivity.
Qed.

Lemma list_ascii_length (s : string) :
  List.length (list_ascii_of_string s) = String.length s.
Proof. induction s; simpl; congruence. Qed.
End Seed.

Lemma digit_range (c : ascii) : JS.isDigit c = true -> 0 <= JS.digit c <= 9.
Proof. rewrite isDigit_range. unfold JS.digit. lia. Qed.

Lemma Number_from_split (s : string) :
  JS.allDigits s = true ->
  forall acc,
    JS.Number_from acc s
    = acc * 10 ^ Z.of_nat (String.length s) + JS.Number_from 0 s
    /\ 0 <= JS.Number_from 0 s < 10 ^ Z.of_nat (String.length s).
Proof.
  induction s as [|c s IH];
    cbn [JS.Number_from JS.allDigits String.length]; intros Hd acc.
  - change (10 ^ Z.of_nat 0) with 1. lia.
  - apply andb_true_iff in Hd as [Hc Hs].
    pose proof (digit_range c Hc) as Hr.
    destruct (IH Hs (10 * acc + JS.digit c)) as [E1 _].
    destruct (IH Hs (10 * 0 + JS.digit c)) as [E2 B].
    rewrite E1, E2.
    rewrite Nat2Z.inj_succ, Z.pow_succ_r by lia.
    split; nia.
Qed.

(** The source's chain of tests is the pattern. *)
Lemma onChange_pattern (seed value : string) :
  onChange seed value =
  if (value =? "")%string || seedPattern value then value else seed.
Proof.
  unfold onChange. destruct value as [|c rest]; [reflexivity|].
  change (String c rest =? "")%string with false.
  cbn [orb negb]. unfold JS.test_digits.
  change (String c rest =? "")%string with false.
  cbn [negb andb JS.allDigits JS.startsWith0 seedPattern].
  unfold JS.length. rewrite list_ascii_length. cbn [String.length].
  unfold JS.Number. cbn [JS.Number_from].
  destruct (JS.isDigit c) eqn:Dc; cbn [andb negb].
  2:{ destruct (Ascii.eqb c "0"%char) eqn:Z0.
      - apply zero_char in Z0.
        assert (JS.isDigit c = true) by (apply isDigit_range; lia). congruence.
      - destruct (nonzeroDigit c) eqn:N0; [|reflexivity].
        apply nonzeroDigit_range in N0.
        assert (JS.isDigit c = true) by (apply isDigit_range; lia). congruence. }
  destruct (JS.allDigits rest) eqn:Dr; cbn [andb negb].
  2:{ rewrite andb_false_r. cbn [orb].
      destruct rest; [discriminate Dr|]. rewrite andb_false_r. reflexivity. }
  rewrite andb_true_r.
  pose proof (proj1 (isDigit_range c) Dc) as Rc.
  destruct (Number_from_split rest Dr (10 * 0 + JS.digit c)) as [E B].
  rewrite E. unfold JS.digit in *.
  destruct (Ascii.eqb c "0"%char) eqn:Z0.
  - apply zero_char in Z0.
    assert (N0 : nonzeroDigit c = false).
    { destruct (nonzeroDigit c) eqn:N0; [|reflexivity].
      apply nonzeroDigit_range in N0. lia. }
    rewrite N0. cbn [andb orb]. rewrite orb_false_r.
    destruct rest as [|d rest].
    + cbn [String.length JS.Number_from]. rewrite Z0. reflexivity.
    + change (String d rest =? "")%string with false.
      assert (G : (Z.of_nat (S (String.length (String d rest))) >? 1) = true)
        by (apply Z.gtb_lt; cbn [String.length]; lia).
      rewrite G. reflexivity.
  - assert (N0 : nonzeroDigit c = true).
    { apply nonzeroDigit_range.
      destruct (Nat.eq_dec (nat_of_ascii c) 48) as [H|H]; [|lia].
      apply zero_char in H. congruence. }
    apply nonzeroDigit_range in N0 as Rn.
    rewrite N0. cbn [andb orb]. rewrite andb_false_r. cbn [orb].
    destruct (String.length rest <=? 2)%nat eqn:L.
    + apply Nat.leb_le in L.
      assert (10 ^ Z.of_nat (String.length rest) <= 100).
      { change 100 with (10 ^ 2). apply Z.pow_le_mono_r; lia. }
      destruct (_ >? 999) eqn:G; [|reflexivity].
      apply Z.gtb_lt in G. nia.
    + apply Nat.leb_gt in L.
      assert (1000 <= 10 ^ Z.of_nat (String.length rest)).
      { change 1000 with (10 ^ 3). apply Z.pow_le_mono_r; lia. }
      destruct (_ >? 999) eqn:G; [reflexivity|].
      rewrite Z.gtb_ltb in G. apply Z.ltb_ge in G. nia.
Qed.

Lemma seedPattern_value (s : string) :
  seedPattern s = true -> JS.allDigits s = true /\ 0 <= JS.Number s <= 999.
Proof.
  destruct s as [|c rest]; [discriminate|]. cbn [seedPattern].
  rewrite orb_true_iff, !andb_true_iff. intros [[Z0 R]|[[N0 Dr] L]].
  - apply String.eqb_eq in R. subst rest.
    apply Ascii.eqb_eq in Z0. subst c. split; [reflexivity|].
    unfold JS.Number; simpl. unfold JS.digit; simpl. lia.
  - apply nonzeroDigit_range in N0. apply Nat.leb_le in L.
    assert (Dc : JS.isDigit c = true) by (apply isDigit_range; lia).
    split; [cbn [JS.allDigits]; now rewrite Dc, Dr|].
    unfold JS.Number. cbn [JS.Number_from].
    destruct (Number_from_split rest Dr (10 * 0 + JS.digit c)) as [E B].
    rewrite E. unfold JS.digit.
    assert (10 ^ Z.of_nat (String.length rest) <= 100).
    { change 100 with (10 ^ 2). apply Z.pow_le_mono_r; lia. }
    nia.
Qed.

Lemma onChange_ok (seed value : string) :
  seedOk seed -> seedOk (onChange seed value).
Proof.
  intros H. rewrite onChange_pattern.
  destruct (value =? "")%string eqn:E; cbn [orb].
  - apply String.eqb_eq in E. now left.
  - destruct (seedPattern value) eqn:P; [now right|exact H].
Qed.

(* ================================================================== *)
(** ** Invariant of the reachable worlds *)

Lemma createTableResult_replay gridSize agent eps (data : list GameState) r :
  createTableResult gridSize agent eps (JS.length data - 1) data = Some r ->
  TableResult.replay r = data /\ data <> [].
Proof.
  unfold createTableResult. destruct data as [|g data].
  - rewrite get_empty. discriminate.
  - destruct (JS.get _ _); simpl; [|discriminate].
    intros H. inversion H. split; [reflexivity|discriminate].
Qed.

Lemma Forall_drop_nth {A} (P : A -> Prop) (k : nat) (l : list A) :
  Forall P l -> Forall P (drop_nth k l).
Proof.
  intros H. unfold drop_nth. apply Forall_app. split.
  - rewrite <- (firstn_skipn k l) in H. now apply Forall_app in H.
  - rewrite <- (firstn_skipn (S k) l) in H. now apply Forall_app in H.
Qed.

Lemma Forall_put_nth {A} (P : A -> Prop) (k : nat) (x : A) (l : list A) :
  P x -> Forall P l -> Forall P (put_nth k x l).
Proof.
  intros Hx H. unfold put_nth. apply Forall_app. split.
  - rewrite <- (firstn_skipn k l) in H. now apply Forall_app in H.
  - constructor; [exact Hx|].
    rewrite <- (firstn_skipn (S k) l) in H. now apply Forall_app in H.
Qed.

Lemma Forall_nth_error {A} (P : A -> Prop) (l : list A) (k : nat) (x : A) :
  Forall P l -> nth_error l k = Some x -> P x.
Proof.
  intros H E. apply nth_error_In in E. rewrite Forall_forall in H. auto.
Qed.

(** A batch keeps the invariant as soon as it keeps the cursor, the seeds and
    the ledger in shape and does not empty lane 1 under a running timer. *)
Lemma settle_Inv (w : World) (next : App) (fl : list Flight) :
  Inv w ->
  0 <= timeStep next ->
  (playing (app w) = true -> playing next = true -> gameStates1 next <> []) ->
  seedOk (seed1 next) -> seedOk (seed2 next) ->
  Forall flightOk fl ->
  Forall (fun r => TableResult.replay r <> []) (tableRes next) ->
  (speed next = 1 \/ speed next = 2 \/ speed next = 4) ->
  Inv (settle w next fl).
Proof.
  intros I Hc Hp Hs1 Hs2 Hf Ht Hv.
  assert (P : playing (app (settle w next fl)) = true ->
              gameStates1 next <> [] /\ playing next = true).
  { rewrite settle_playing. unfold playbackDeps.
    destruct (playing (app w)) eqn:Pw, (playing next) eqn:Pn;
      cbn [Bool.eqb negb orb andb];
      try (destruct (negb (speed (app w) =? speed next))); try discriminate;
      try (intros _; split; [now apply Hp|reflexivity]);
      intros H; apply negb_true_iff, Z.eqb_neq in H;
      rewrite length_zero_iff in H; now split. }
  constructor.
  - now rewrite settle_timeStep.
  - rewrite settle_gameStates1. intros H. now apply P.
  - rewrite settle_playing, settle_timer.
    destruct (playbackDeps (app w) next) eqn:D.
    + destruct (playing next && negb (JS.length (gameStates1 next) =? 0));
        split; congruence.
    + unfold playbackDeps in D. apply orb_false_iff in D as [D _].
      apply negb_false_iff, eqb_prop in D. rewrite <- D. apply I.
  - now rewrite settle_seed1.
  - now rewrite settle_seed2.
  - now rewrite settle_flights.
  - now rewrite settle_tableRes.
  - now rewrite settle_speed.
Qed.

Lemma boot_Inv : Inv boot.
Proof.
  constructor; simpl; try (now left); try constructor; try lia;
    try discriminate; try congruence.
Qed.

Lemma handle_Inv (e : Event) (w : World) : Inv w -> Inv (handle e w).
Proof.
  intros I. pose proof I as [Ic Ip It Is1 Is2 If Itab Iv].
  destruct e; cbn [handle].
  - (* agent *)
    unfold selectAgent. destruct (rendered l (app w)); destruct l;
      apply settle_Inv; simpl; auto; try lia; try discriminate.
  - (* training budget *)
    unfold selectEps.
    destruct (rendered l (app w) && negb (agentOf l (app w) =? "a*")%string);
      destruct l; apply settle_Inv; simpl; auto; try lia; try discriminate.
  - (* seed *)
    unfold seedInput. destruct (rendered l (app w)); destruct l;
      apply settle_Inv; simpl; auto using onChange_ok.
  - (* grid size *)
    apply settle_Inv; simpl; auto; try lia; discriminate.
  - (* run new game *)
    unfold loadNewGame_start. apply settle_Inv; simpl; auto.
    apply Forall_app. split; [assumption|].
    constructor; [|constructor].
    repeat split; simpl; auto; discriminate.
  - (* response *)
    unfold loadNewGame_resume.
    destruct (nth_error (flights w) k) as [f|] eqn:Ef; [|assumption].
    pose proof (@Forall_nth_error _ _ _ _ _ If Ef) as (Hf1 & Hf2 & Hf3).
    destruct (first f) as [data1|] eqn:F1.
    + destruct (createTableResult _ _ _ _ data) as [r|] eqn:C.
      * apply createTableResult_replay in C as [Cr Cd].
        apply settle_Inv; simpl; auto using Forall_drop_nth; try lia.
        -- intros _ _ E. apply Hf3. now rewrite E.
        -- constructor; [congruence|assumption].
      * constructor; simpl; auto using Forall_drop_nth.
    + destruct (createTableResult _ _ _ _ data) as [r|] eqn:C.
      * apply createTableResult_replay in C as [Cr Cd].
        destruct (twoGrids (held f)).
        -- apply settle_Inv; simpl; auto.
           ++ apply Forall_put_nth; [|assumption].
              repeat split; simpl; auto. congruence.
           ++ constructor; [congruence|assumption].
        -- apply settle_Inv; simpl; auto using Forall_drop_nth; try lia.
           constructor; [congruence|assumption].
      * constructor; simpl; auto using Forall_drop_nth.
  - (* back *)
    apply settle_Inv; simpl; auto; try discriminate.
    destruct (timeStep (app w) >? 0) eqn:G; [apply Z.gtb_lt in G|]; lia.
  - (* play, pause, restart *)
    unfold playOrRestart. destruct (canStepForward (app w));
      apply settle_Inv; simpl; auto; try lia; try discriminate.
  - (* forward *)
    apply settle_Inv; simpl; auto; try discriminate.
    destruct (timeStep (app w) <? maxStep (app w)); lia.
  - (* speed *)
    apply settle_Inv; simpl; auto.
    destruct Iv as [-> | [-> | ->]]; cbn; auto.
  - (* add or remove grid *)
    apply settle_Inv; simpl; auto; try lia; discriminate.
  - (* replay *)
    destruct (nth_error (tableRes (app w)) row) as [res|] eqn:Er; [|assumption].
    pose proof (@Forall_nth_error _ _ _ _ _ Itab Er) as Hr. cbn beta in Hr.
    unfold restore.
    destruct l; destruct (negb (gridSize (app w) =? TableResult.replaySize res));
      apply settle_Inv; simpl; auto; try lia; discriminate.
  - (* tick *)
    destruct (timer w) as [iv|]; [|assumption].
    unfold tick. destruct (timeStep (app w) >=? _);
      apply settle_Inv; simpl; auto; try lia; discriminate.
Qed.

Lemma run_snoc (es : list Event) (e : Event) :
  run (es ++ [e])%list = handle e (run es).
Proof. unfold run, run_from. rewrite fold_left_app. reflexivity. Qed.

Lemma run_from_reachable (es : list Event) :
  forall w, reachable w -> reachable (run_from w es).
Proof.
  induction es as [|e es IH]; intros w R; simpl; [exact R|].
  apply IH. now constructor.
Qed.

Lemma run_reachable (es : list Event) : reachable (run es).
Proof. apply (run_from_reachable es), reach_boot. Qed.

Lemma reachable_run (w : World) : reachable w -> exists es, w = run es.
Proof.
  induction 1 as [|e w _ [es ->]].
  - now exists [].
  - exists (es ++ [e])%list. now rewrite run_snoc.
Qed.

Lemma reachable_Inv (w : World) : reachable w -> Inv w.
Proof. induction 1; [apply boot_Inv|now apply handle_Inv]. Qed.

Lemma run_Inv (es : list Event) : Inv (run es).
Proof. apply reachable_Inv, run_reachable. Qed.

(* ================================================================== *)
(** ** Rendering stays inside the snapshot sequence *)

Lemma effectiveStep_min (timeStep : Z) (gameStates : list GameState) :
  effectiveStep timeStep gameStates
  = Z.min timeStep (JS.length gameStates - 1).
Proof.
  unfold effectiveStep. rewrite Z.geb_leb.
  destruct (Z.leb_spec (JS.length gameStates) timeStep); lia.
Qed.

Lemma effectiveStep_in_range (timeStep : Z) (gameStates : list GameState) :
  0 <= timeStep -> gameStates <> [] ->
  0 <= effectiveStep timeStep gameStates < JS.length gameStates.
Proof.
  intros Ht Hne. rewrite effectiveStep_min.
  pose proof (length_nonneg gameStates) as Hl.
  assert (JS.length gameStates <> 0) by now rewrite length_zero_iff.
  lia.
Qed.

Lemma generateGrid_total (gridSize timeStep : Z) (gameStates : list GameState) :
  gameStates = []
  \/ (exists g, JS.get gameStates (effectiveStep timeStep gameStates) = Some g) ->
  exists cs, generateGrid gridSize timeStep gameStates = Some cs.
Proof.
  intros H. unfold generateGrid. apply mapM_total. intros i. unfold cellClass.
  destruct H as [->|[g Hg]].
  - change (JS.length (@nil GameState) =? 0) with true.
    change (JS.length (@nil GameState) >? 0) with false.
    cbn [bind]. cases; eauto.
  - rewrite Hg. cases; eauto.
Qed.

Lemma generateGrid_empty (gridSize timeStep : Z) (cs : list Cell) :
  generateGrid gridSize timeStep [] = Some cs ->
  Forall (fun c => className c <> Fruit /\ style c = None) cs.
Proof.
  unfold generateGrid. apply mapM_Forall. intros i c. unfold cellClass.
  change (JS.length (@nil GameState) =? 0) with true.
  change (JS.length (@nil GameState) >? 0) with false.
  cbn [bind]. cases; intros E; inversion E; cbn;
    split; (discriminate || reflexivity).
Qed.

Lemma Grid_empty (gridSize timeStep : Z) :
  exists v, Grid gridSize timeStep [] = Some v
            /\ Forall (fun c => className c <> Fruit /\ style c = None) (cells v).
Proof.
  destruct (@generateGrid_total gridSize timeStep [] (or_introl eq_refl))
    as [cs Hcs].
  unfold Grid. rewrite Hcs.
  change (JS.length (@nil GameState) =? 0) with true. cbn [bind].
  eexists. split; [reflexivity|]. cbn [cells].
  now apply generateGrid_empty with gridSize timeStep.
Qed.

Lemma Grid_total (gridSize timeStep : Z) (gameStates : list GameState) :
  0 <= timeStep -> exists v, Grid gridSize timeStep gameStates = Some v.
Proof.
  intros Ht. destruct gameStates as [|g0 gs].
  - destruct (Grid_empty gridSize timeStep) as [v [E _]]. eauto.
  - set (l := g0 :: gs).
    assert (Hne : l <> []) by discriminate.
    destruct (@get_in_range _ l _ (effectiveStep_in_range Ht Hne)) as [g Hg].
    destruct (@generateGrid_total gridSize timeStep l
                (or_intror (ex_intro _ g Hg))) as [cs Hcs].
    unfold Grid. rewrite Hcs, Hg. cases; eauto.
Qed.

(** In every reachable state both lanes render. *)
Lemma reachable_lanes_render (es : list Event) (l : Lane) :
  let s := app (run es) in
  exists v, Grid (gridSize s) (timeStep s) (gameStatesOf l s) = Some v.
Proof. intros s. apply Grid_total, (inv_cursor (run_Inv es)). Qed.

(* ================================================================== *)
(** ** The history entry of a run *)



(* ================================================================== *)
(** ** Manual stepping *)

Lemma settle_stops (w : World) (next : App) (fl : list Flight) :
  Inv w -> playing next = false ->
  playing (app (settle w next fl)) = false /\ timer (settle w next fl) = None.
Proof.
  intros I Hn. rewrite settle_playing, settle_timer, Hn. cbn [andb].
  destruct (playbackDeps (app w) next) eqn:D; [now split|].
  split; [reflexivity|].
  unfold playbackDeps in D. apply orb_false_iff in D as [D _].
  apply negb_false_iff, eqb_prop in D. rewrite Hn in D.
  destruct (timer w) eqn:T; [|reflexivity].
  assert (timer w <> None) as N by congruence.
  apply (inv_timer I) in N. congruence.
Qed.

(** C6. In every reachable state the cursor is not negative.  "Forward" adds
    1 to the cursor when it is strictly below
    [max(lane1.length, lane2.length) - 1] and leaves it alone otherwise;
    "Back" subtracts 1 when the cursor is positive and leaves it alone
    otherwise; both leave the lanes alone, stop playback and cancel the
    timer. *)
Theorem manual_step_moves_cursor_by_one :
  forall es : list Event,
    let w := run es in
    0 <= timeStep (app w)
    /\ (let w' := handle ForwardClicked w in
        (timeStep (app w) < ceiling (app w) ->
         timeStep (app w') = timeStep (app w) + 1)
        /\ (ceiling (app w) <= timeStep (app w) ->
            timeStep (app w') = timeStep (app w))
        /\ playing (app w') = false /\ timer w' = None
        /\ gameStates1 (app w') = gameStates1 (app w)
        /\ gameStates2 (app w') = gameStates2 (app w))
    /\ (let w' := handle BackClicked w in
        (0 < timeStep (app w) -> timeStep (app w') = timeStep (app w) - 1)
        /\ (timeStep (app w) <= 0 -> timeStep (app w') = timeStep (app w))
        /\ playing (app w') = false /\ timer w' = None
        /\ gameStates1 (app w') = gameStates1 (app w)
        /\ gameStates2 (app w') = gameStates2 (app w)).
Proof.
  intros es w. pose proof (run_Inv es) as I. fold w in I.
  split; [apply I|]. split.
  - cbn [handle]. rewrite settle_timeStep, settle_gameStates1, settle_gameStates2.
    destruct (@settle_stops w (stepForward (app w)) (flights w) I eq_refl)
      as [P T].
    unfold stepForward, ceiling, maxStep in *. cbn.
    repeat split; auto.
    + intros H. apply Z.ltb_lt in H. now rewrite H.
    + intros H. apply Z.ltb_ge in H. now rewrite H.
  - cbn [handle]. rewrite settle_timeStep, settle_gameStates1, settle_gameStates2.
    destruct (@settle_stops w (stepBack (app w)) (flights w) I eq_refl)
      as [P T].
    unfold stepBack in *. cbn.
    repeat split; auto.
    + intros H. rewrite Z.gtb_ltb. apply Z.ltb_lt in H. now rewrite H.
    + intros H. rewrite Z.gtb_ltb. apply Z.ltb_ge in H. now rewrite H.
Qed.

Lemma manual_step_moves_cursor_by_one_witness :
  let s := mkGameState [12; 11] 6 false false in
  let w := run [RunClicked; Responded 0 [s; s; s]] in
  timeStep (app w) < ceiling (app w)
  /\ timeStep (app (handle ForwardClicked w)) = 1.
Proof.
  intros s w.
  assert (H : timeStep (app w) < ceiling (app w)) by (vm_compute; reflexivity).
  split; [exact H|].
  destruct (manual_step_moves_cursor_by_one
              [RunClicked; Responded 0 [s; s; s]]) as (_ & (F & _) & _).
  fold w in F. rewrite (F H). reflexivity.
Defined.

(* ================================================================== *)
(** ** Seeds that reach a request *)

Lemma edits_ok (edits : list string) :
  forall seed, seedOk seed -> seedOk (fold_left onChange edits seed).
Proof.
  induction edits as [|v edits IH]; intros seed H; simpl; [exact H|].
  apply IH, onChange_ok, H.
Qed.

(** C7. The seed handler stores the typed text exactly when it is empty or
    matches [^(0|[1-9][0-9]{0,2})$], and keeps the stored seed otherwise; a
    text of the pattern is a numeral between 0 and 999.  So after any sequence
    of edits, and in every reachable state, both stored seeds are empty or of
    the pattern, and so is the seed held by every pending call of
    [loadNewGame], from which [sendRequest] builds its request. *)
Theorem seed_is_empty_or_numeral_below_1000 :
  (forall seed value : string,
      onChange seed value =
      if (value =? "")%string || seedPattern value then value else seed)
  /\ (forall value : string,
         seedPattern value = true ->
         JS.allDigits value = true /\ 0 <= JS.Number value <= 999)
  /\ (forall edits : list string, seedOk (fold_left onChange edits ""))
  /\ (forall es : list Event,
         let w := run es in
         seedOk (seed1 (app w)) /\ seedOk (seed2 (app w))
         /\ Forall (fun f => seedOk (req_seed (requestOf Lane1 (held f)))
                             /\ seedOk (req_seed (requestOf Lane2 (held f))))
                   (flights w)).
Proof.
  split; [exact onChange_pattern|]. split; [exact seedPattern_value|].
  split; [intros edits; apply edits_ok; now left|].
  intros es w. pose proof (run_Inv es) as I. fold w in I.
  split; [apply I|]. split; [apply I|].
  eapply Forall_impl; [|apply (inv_flights I)].
  intros f (H1 & H2 & _). now split.
Qed.

Lemma seed_is_empty_or_numeral_below_1000_witness :
  seedPattern "42" = true /\ 0 <= JS.Number "42" <= 999.
Proof.
  split; [reflexivity|].
  apply (proj1 (proj2 seed_is_empty_or_numeral_below_1000) "42"). reflexivity.
Defined.

(* ================================================================== *)
(** ** The ledger *)

Lemma createTableResult_total gridSize agent eps (data : list GameState) :
  data <> [] ->
  exists r, createTableResult gridSize agent eps (JS.length data - 1) data = Some r.
Proof.
  intros H. destruct (@exists_last _ data H) as (init & t & ->).
  unfold createTableResult. rewrite get_last. cbn [bind]. eauto.
Qed.

Lemma nth_error_snoc {A} (l : list A) (x : A) :
  nth_error (l ++ [x]) (List.length l) = Some x.
Proof. rewrite nth_error_app2, Nat.sub_diag by lia. reflexivity. Qed.

Lemma drop_nth_snoc {A} (l : list A) (x : A) :
  drop_nth (List.length l) (l ++ [x]) = l.
Proof.
  unfold drop_nth. rewrite firstn_app, Nat.sub_diag, firstn_all.
  rewrite skipn_all2 by (rewrite length_app; simpl; lia).
  simpl. now rewrite !app_nil_r.
Qed.




Lemma handle_tableRes_other (e : Event) (w : World) :
  (forall k d, e <> Responded k d) ->
  tableRes (app (handle e w)) = tableRes (app w).
Proof.
  intros H. destruct e; cbn [handle];
    try (rewrite settle_tableRes; reflexivity).
  - unfold selectAgent. cases; rewrite ?settle_tableRes; now destruct l.
  - unfold selectEps. cases; rewrite ?settle_tableRes; now destruct l.
  - unfold seedInput. cases; rewrite ?settle_tableRes; now destruct l.
  - unfold loadNewGame_start. now rewrite settle_tableRes.
  - now elim (H k data).
  - unfold playOrRestart. cases; now rewrite settle_tableRes.
  - destruct (nth_error (tableRes (app w)) row); [|reflexivity].
    rewrite settle_tableRes. unfold restore. destruct l; cases; reflexivity.
  - destruct (timer w); [|reflexivity].
    rewrite settle_tableRes. unfold tick. cases; reflexivity.
Qed.

Section Resume.
Variables (w : World) (k : nat) (f : Flight) (data : list GameState)
          (r : TableResult.t).
Hypothesis Hk : nth_error (flights w) k = Some f.

Lemma resume_single :
  first f = None -> twoGrids (held f) = false ->
  createTableResult (gridSize (held f)) (agent1 (held f)) (eps1 (held f))
                    (JS.length data - 1) data = Some r ->
  loadNewGame_resume k data w
  = settle w (app w |> setTableRes (r :: tableRes (app w))
                    |> setGameStates1 data |> setLoading false
                    |> setTimeStep 0 |> setPlaying true)
             (drop_nth k (flights w)).
Proof.
  intros F T C. unfold loadNewGame_resume. now rewrite Hk, F, C, T.
Qed.


End Resume.



(* ================================================================== *)
(** ** The playback timer *)

Lemma tick_moves_at_most_one (iv : Interval) (s : App) :
  timeStep (tick iv s) = timeStep s \/ timeStep (tick iv s) = timeStep s + 1.
Proof. unfold tick. cases; [left|right]; reflexivity. Qed.

(** No firing of the timer moves the cursor by more than one, whatever
    happened before it (a change of speed included). *)
Lemma Ticked_moves_at_most_one (w : World) :
  timeStep (app (handle Ticked w)) = timeStep (app w)
  \/ timeStep (app (handle Ticked w)) = timeStep (app w) + 1.
Proof.
  cbn [handle]. destruct (timer w) as [iv|]; [|now left].
  rewrite settle_timeStep. apply tick_moves_at_most_one.
Qed.

(** With a callback that sees the current lanes, a tick does what the
    playback clock is meant to do. *)
Lemma Ticked_fresh (w : World) :
  Inv w -> fresh w -> playing (app w) = true ->
  let w' := handle Ticked w in
  (timeStep (app w) < ceiling (app w) ->
   timeStep (app w') = timeStep (app w) + 1 /\ playing (app w') = true)
  /\ (ceiling (app w) <= timeStep (app w) ->
      timeStep (app w') = timeStep (app w)
      /\ playing (app w') = false /\ timer w' = None).
Proof.
  intros I F P. cbn [handle].
  destruct (timer w) as [iv|] eqn:T.
  2:{ apply (inv_timer I) in P. congruence. }
  destruct (F iv T) as [E1 E2].
  unfold ceiling. cbn zeta. split; intros H.
  - assert (Hn : tick iv (app w) = setTimeStep (timeStep (app w) + 1) (app w)).
    { unfold tick. rewrite E1, E2, Z.geb_leb.
      destruct (Z.leb_spec (Z.max (JS.length (gameStates1 (app w)))
                                  (JS.length (gameStates2 (app w))) - 1)
                           (timeStep (app w))); [lia|reflexivity]. }
    rewrite settle_timeStep, settle_playing, Hn. unfold playbackDeps. cbn.
    rewrite P, Z.eqb_refl. cbn. now split.
  - assert (Hn : tick iv (app w) = setPlaying false (app w)).
    { unfold tick. rewrite E1, E2, Z.geb_leb.
      destruct (Z.leb_spec (Z.max (JS.length (gameStates1 (app w)))
                                  (JS.length (gameStates2 (app w))) - 1)
                           (timeStep (app w))); [reflexivity|lia]. }
    rewrite settle_timeStep, Hn.
    destruct (@settle_stops w (setPlaying false (app w)) (flights w) I eq_refl).
    now repeat split.
Qed.

(** Every event but a response to [loadNewGame] leaves the callback with the
    lanes of the current render. *)
Lemma fresh_kept (e : Event) (w : World) :
  Inv w -> fresh w -> (forall k d, e <> Responded k d) -> fresh (handle e w).
Proof.
  intros I F NR.
  assert (K : forall next fl,
             (playing next = true ->
              gameStates1 next = gameStates1 (app w)
              /\ gameStates2 next = gameStates2 (app w)) ->
             fresh (settle w next fl)).
  { intros next fl Hn iv. rewrite settle_timer, settle_gameStates1,
      settle_gameStates2.
    destruct (playbackDeps (app w) next) eqn:D.
    - destruct (playing next && _); [|discriminate].
      intros E; inversion E; now split.
    - intros T. unfold playbackDeps in D. apply orb_false_iff in D as [D _].
      apply negb_false_iff, eqb_prop in D.
      assert (timer w <> None) as N by congruence.
      apply (inv_timer I) in N. rewrite D in N.
      destruct (Hn N) as [-> ->]. now apply F. }
  destruct e; cbn [handle]; try (apply K; cbn; (discriminate || now split)).
  - unfold selectAgent. cases; apply K; destruct l; cbn;
      (discriminate || now split).
  - unfold selectEps. cases; apply K; destruct l; cbn;
      (discriminate || now split).
  - unfold seedInput. cases; apply K; destruct l; cbn; now split.
  - now elim (NR k data).
  - unfold playOrRestart. cases; apply K; cbn; (discriminate || now split).
  - destruct (nth_error (tableRes (app w)) row); [|exact F].
    apply K. unfold restore. destruct l; cases; cbn; discriminate.
  - destruct (timer w); [|exact F].
    apply K. unfold tick. cases; cbn; (discriminate || now split).
Qed.

Lemma fresh_boot : fresh boot.
Proof. intros iv H. discriminate H. Qed.

(** A response that arrives while playback is stopped starts a timer that
    sees the lanes it has just loaded. *)
Lemma fresh_response_when_stopped (k : nat) (data : list GameState) (w : World) :
  Inv w -> playing (app w) = false -> fresh (handle (Responded k data) w).
Proof.
  intros I Pw.
  assert (T : timer w = None).
  { destruct (timer w) eqn:T; [|reflexivity].
    assert (timer w <> None) as N by congruence.
    apply (inv_timer I) in N. congruence. }
  assert (K : forall next fl, fresh (settle w next fl)).
  { intros next fl iv.
    rewrite settle_timer, settle_gameStates1, settle_gameStates2, T.
    cases; try discriminate. intros E. inversion E. now split. }
  cbn [handle]. unfold loadNewGame_resume.
  destruct (nth_error (flights w) k) as [f|];
    [|intros iv H; congruence].
  destruct (first f); destruct (createTableResult _ _ _ _ _);
    try (intros iv H; cbn in H; congruence); cases; apply K.
Qed.

(** A change of speed while playing replaces the timer by one of the new
    period that sees the current lanes; cursor and playback are untouched. *)
Lemma SpeedClicked_restarts_timer (w : World) :
  Inv w -> playing (app w) = true ->
  let w' := handle SpeedClicked w in
  timer w' = Some (mkInterval (500 / inject_Z (speed (app w')))
                              (gameStates1 (app w)) (gameStates2 (app w)))
  /\ speed (app w') <> speed (app w)
  /\ timeStep (app w') = timeStep (app w)
  /\ playing (app w') = true
  /\ fresh w'.
Proof.
  intros I P. cbn zeta. cbn [handle].
  assert (G : (JS.length (gameStates1 (app w)) =? 0) = false).
  { apply Z.eqb_neq. rewrite length_zero_iff. now apply (inv_playing I). }
  assert (D : playbackDeps (app w) (cycleSpeed (app w)) = true).
  { unfold playbackDeps, cycleSpeed. cbn. rewrite eqb_reflx. cbn.
    destruct (inv_speed I) as [-> | [-> | ->]]; reflexivity. }
  assert (T : timer (settle w (cycleSpeed (app w)) (flights w))
              = Some (mkInterval (500 / inject_Z (speed (cycleSpeed (app w))))
                                 (gameStates1 (app w)) (gameStates2 (app w)))).
  { rewrite settle_timer, D. cbn. now rewrite P, G. }
  rewrite settle_speed, settle_timeStep, settle_playing, D, T. cbn.
  rewrite P, G. split; [reflexivity|]. split; [|split; [|split]];
    try reflexivity.
  - unfold cycleSpeed. cbn.
    destruct (inv_speed I) as [-> | [-> | ->]]; cbn; lia.
  - intros iv. rewrite T, settle_gameStates1, settle_gameStates2.
    intros E. inversion E. now split.
Qed.

(** C1. The interval callback compares the cursor with the lengths of the
    lanes it captured when the playback effect last ran (dependencies
    [[playing, speed]]), not with the lanes now loaded.  After "Run new game"
    is used twice, the second time while the first run is still playing, the
    callback still holds the first run.  With a first run of 3 snapshots and
    a second of 2, the cursor stands at the ceiling 1 and the next tick moves
    it to 2 and keeps playing; with the runs swapped, the cursor stands at 1,
    below the ceiling 2, and the next tick stops playback there. *)
Theorem tick_compares_with_captured_lanes :
  let s := mkGameState [12; 11] 6 false false in
  let w := run [RunClicked; Responded 0 [s; s; s];
                RunClicked; Responded 0 [s; s]; Ticked] in
  let v := run [RunClicked; Responded 0 [s; s];
                RunClicked; Responded 0 [s; s; s]; Ticked] in
  (playing (app w) = true /\ timeStep (app w) = 1 /\ ceiling (app w) = 1
   /\ timeStep (app (handle Ticked w)) = 2
   /\ playing (app (handle Ticked w)) = true)
  /\ (playing (app v) = true /\ timeStep (app v) = 1 /\ ceiling (app v) = 2
      /\ timeStep (app (handle Ticked v)) = 1
      /\ playing (app (handle Ticked v)) = false).
Proof. vm_compute. repeat split. Qed.

(* ================================================================== *)
(** ** Restoring a history entry *)

Lemma restore_effects (w : World) (l : Lane) (row : nat) (res : TableResult.t) :
  Inv w ->
  nth_error (tableRes (app w)) row = Some res ->
  let w' := handle (ReplayClicked l row) w in
  gameStatesOf l (app w') = TableResult.replay res
  /\ agentOf l (app w') = TableResult.agentCode res
  /\ epsOf l (app w') =
     (if epsEffectRuns l (app w) (TableResult.agentCode res)
      then epsEffect (TableResult.agentCode res) (TableResult.train res)
      else TableResult.train res)
  /\ gridSize (app w') = TableResult.replaySize res
  /\ timeStep (app w') = 0
  /\ playing (app w') = false /\ timer w' = None
  /\ (gridSize (app w) <> TableResult.replaySize res ->
      gameStatesOf (other l) (app w') = TableResult.replay res)
  /\ (gridSize (app w) = TableResult.replaySize res ->
      gameStatesOf (other l) (app w') = gameStatesOf (other l) (app w))
  /\ agentOf (other l) (app w') = agentOf (other l) (app w)
  /\ epsOf (other l) (app w') = epsOf (other l) (app w)
  /\ twoGrids (app w') = match l with Lane1 => twoGrids (app w) | Lane2 => true end
  /\ tableRes (app w') = tableRes (app w).
Proof.
  intros I E. cbn [handle]. rewrite E. cbn zeta.
  destruct l; cbn [gameStatesOf agentOf epsOf other epsEffectRuns];
    rewrite settle_gameStates1, settle_gameStates2, settle_agent1,
      settle_agent2, settle_eps1, settle_eps2, settle_gridSize,
      settle_timeStep, settle_twoGrids, settle_tableRes;
    unfold restore;
    destruct (Z.eqb_spec (gridSize (app w)) (TableResult.replaySize res)) as [G|G];
    cbn;
    rewrite ?String.eqb_refl, ?andb_false_r; cbn;
    repeat split; auto; try congruence;
    try (destruct (agent1 (app w) =? TableResult.agentCode res)%string;
         reflexivity);
    try (destruct (twoGrids (app w)); reflexivity);
    try (refine (proj1 (@settle_stops w _ _ I _)); reflexivity);
    try (refine (proj2 (@settle_stops w _ _ I _)); reflexivity).
Qed.

(** A valid budget of a "deep" agent is replaced by "50k" whenever the
    [ModelSelect] effect runs: its last branch is not guarded by the agent
    kind. *)
Lemma epsEffect_deep (eps : string) :
  JS.mem ["1k"; "3k"; "5k"] eps = true -> epsEffect "deep-ql" eps = "50k".
Proof.
  intros H. unfold epsEffect. cbn [String.eqb Ascii.eqb Bool.eqb].
  change (JS.includes "deep-ql" "deep") with true. rewrite H. cbn [andb negb].
  unfold JS.mem in *. cbn [existsb] in *.
  rewrite !orb_true_iff, !String.eqb_eq in H.
  destruct H as [->|[->|[->|H]]]; try reflexivity. discriminate.
Qed.

(** C2. The replay button of lane 1 writes the entry's training budget into
    [eps1], but when the entry's agent differs from the agent selected in the
    lane the [ModelSelect] effect runs next and, for an entry of the agent
    "deep-ql" trained "1k", replaces the budget by "50k".  The run below
    records such an entry, selects "a*" and restores the entry into lane 1. *)
Theorem restore_loses_deep_training_budget :
  let s := mkGameState [12; 11] 6 false true in
  let w := run [AgentChosen Lane1 "deep-ql"; RunClicked; Responded 0 [s; s];
                AgentChosen Lane1 "a*"] in
  exists res,
    nth_error (tableRes (app w)) 0 = Some res
    /\ TableResult.agentCode res = "deep-ql"
    /\ TableResult.train res = "1k"
    /\ eps1 (restore Lane1 res (app w)) = "1k"
    /\ let w' := handle (ReplayClicked Lane1 0) w in
       agent1 (app w') = "deep-ql"
       /\ gameStates1 (app w') = TableResult.replay res
       /\ eps1 (app w') = "50k"
       /\ eps1 (app w') <> TableResult.train res.
Proof. vm_compute. eexists. repeat split. discriminate. Qed.

(** C10. In a reachable state, restoring into lane 1 an entry whose grid
    dimension differs from the current one writes the entry's snapshots into
    lane 2 as well, leaves [agent2], [eps2] and [twoGrids] as they were, and
    the sequence written is not empty.  [maxStep] does not read [twoGrids]:
    it is the entry's length minus 1, and a playback started next captures
    lane 2 in its timer callback whether or not the second grid is shown.
    Lane 2 keeps counting once lane 1 changes: whatever sequence [g1] lane 1
    then holds, [maxStep] is [max(g1.length, replay.length) - 1], and with a
    lane 1 no longer than the replay "Forward" still steps from 0 to 1 as
    long as the replay has more than one snapshot. *)
Theorem restore_into_lane1_overwrites_hidden_lane2 :
  forall (es : list Event) (row : nat) (res : TableResult.t),
    let w := run es in
    nth_error (tableRes (app w)) row = Some res ->
    gridSize (app w) <> TableResult.replaySize res ->
    let w' := handle (ReplayClicked Lane1 row) w in
    gameStates2 (app w') = TableResult.replay res
    /\ gameStates2 (app w') <> []
    /\ agent2 (app w') = agent2 (app w)
    /\ eps2 (app w') = eps2 (app w)
    /\ twoGrids (app w') = twoGrids (app w)
    /\ maxStep (app w')
       = Z.max (JS.length (gameStates1 (app w')))
               (JS.length (gameStates2 (app w'))) - 1
    /\ maxStep (app w') = JS.length (TableResult.replay res) - 1
    /\ (forall b, maxStep (setTwoGrids b (app w')) = maxStep (app w'))
    /\ (1 < JS.length (TableResult.replay res) ->
        exists iv, timer (handle MiddleClicked w') = Some iv
                   /\ seen2 iv = TableResult.replay res)
    /\ (forall g1 : list GameState,
           maxStep (setGameStates1 g1 (app w'))
           = Z.max (JS.length g1) (JS.length (TableResult.replay res)) - 1)
    /\ (forall g1 : list GameState,
           JS.length g1 <= JS.length (TableResult.replay res) ->
           timeStep (stepForward (setGameStates1 g1 (app w')))
           = (if 0 <? JS.length (TableResult.replay res) - 1 then 1 else 0)).
Proof.
  intros es row res w E G w'.
  pose proof (run_Inv es) as I. fold w in I.
  destruct (@restore_effects w Lane1 row res I E)
    as (G1 & _ & _ & _ & T0 & P0 & _ & G2 & _ & A2 & E2 & TG & _).
  fold w' in G1, T0, P0, G2, A2, E2, TG.
  cbn [gameStatesOf other agentOf epsOf] in *. specialize (G2 G).
  clearbody w'.
  pose proof (@Forall_nth_error _ _ _ _ _ (inv_table I) E) as Hne.
  cbn beta in Hne.
  assert (M : maxStep (app w') = JS.length (TableResult.replay res) - 1)
    by (unfold maxStep; rewrite G1, G2; lia).
  assert (M1 : forall g1,
             maxStep (setGameStates1 g1 (app w'))
             = Z.max (JS.length g1) (JS.length (TableResult.replay res)) - 1)
    by (intros g1; unfold maxStep; cbn; now rewrite G2).
  assert (S1 : forall g1,
             JS.length g1 <= JS.length (TableResult.replay res) ->
             timeStep (stepForward (setGameStates1 g1 (app w')))
             = (if 0 <? JS.length (TableResult.replay res) - 1 then 1 else 0)).
  { intros g1 Hg. unfold stepForward. rewrite M1. cbn. rewrite T0.
    rewrite Z.max_r by exact Hg.
    destruct (0 <? JS.length (TableResult.replay res) - 1); reflexivity. }
  repeat split; try assumption; try congruence; try reflexivity;
    try apply M1; try (now apply S1).
  intros L. cbn [handle]. rewrite settle_timer.
  unfold playOrRestart, canStepForward. rewrite M, T0.
  assert (Lb : (0 <? JS.length (TableResult.replay res) - 1) = true)
    by (apply Z.ltb_lt; lia).
  rewrite Lb. unfold playbackDeps. cbn. rewrite P0, G1. cbn.
  assert (Nz : (JS.length (TableResult.replay res) =? 0) = false)
    by (apply Z.eqb_neq; lia).
  rewrite Nz. cbn. eexists. split; [reflexivity|]. cbn. exact G2.
Qed.

Lemma restore_into_lane1_overwrites_hidden_lane2_witness :
  let s := mkGameState [12; 11] 6 false true in
  let es := [RunClicked; Responded 0 [s; s]; GridSizeChosen 7] in
  exists res,
    nth_error (tableRes (app (run es))) 0 = Some res
    /\ gridSize (app (run es)) <> TableResult.replaySize res
    /\ twoGrids (app (handle (ReplayClicked Lane1 0) (run es))) = false
    /\ gameStates2 (app (handle (ReplayClicked Lane1 0) (run es))) = [s; s].
Proof.
  intros s es.
  destruct (nth_error (tableRes (app (run es))) 0) as [res|] eqn:E;
    [|discriminate E].
  exists res.
  assert (R : TableResult.replaySize res = 5 /\ TableResult.replay res = [s; s])
    by (inversion E; split; reflexivity).
  destruct R as [R1 R2].
  assert (G : gridSize (app (run es)) <> TableResult.replaySize res)
    by (rewrite R1; vm_compute; discriminate).
  destruct (@restore_into_lane1_overwrites_hidden_lane2 es 0 res E G)
    as (G2 & _ & _ & _ & TG & _).
  split; [reflexivity|]. split; [exact G|].
  split; [rewrite TG; reflexivity|rewrite G2; exact R2].
Defined.

(* ================================================================== *)
(** ** Controls that clear the board *)

Lemma commit_idle (prev next : App) (t : option Interval) :
  agent1 prev = agent1 next -> agent2 prev = agent2 next ->
  twoGrids prev = twoGrids next ->
  playing prev = playing next -> speed prev = speed next ->
  commit prev t next = (next, t).
Proof.
  intros A1 A2 T P S. unfold commit, playbackDeps.
  rewrite A1, String.eqb_refl. cbn.
  rewrite A2, String.eqb_refl, T.
  destruct (twoGrids next); cbn; now rewrite P, S, Z.eqb_refl, eqb_reflx.
Qed.

Lemma settle_cleared (w : World) (next : App) (fl : list Flight) :
  Inv w -> cleared next ->
  cleared (app (settle w next fl)) /\ timer (settle w next fl) = None.
Proof.
  intros I (G1 & G2 & T & P).
  destruct (@settle_stops w next fl I P) as [Pp Pt].
  unfold cleared.
  rewrite settle_gameStates1, settle_gameStates2, settle_timeStep.
  now repeat split.
Qed.

(** C4 (amended). [resetBoard] empties both lanes, sets the cursor to 0 and
    stops playback, and changes no agent, training budget, seed, grid size or
    lane toggle.  In a reachable state, choosing an agent, choosing a training
    budget, choosing a grid size and toggling the second grid each clear the
    board and cancel the timer, store the chosen value, and leave the seeds,
    the agents not chosen and the training budget of the other lane as they
    were.  Typing in the seed input only replaces the seed of its lane by the
    result of [onChange]: lanes, cursor, playback and timer stay as they
    were. *)
Theorem controls_clear_board_except_seed :
  forall es : list Event,
    let w := run es in
    (forall s : App,
        cleared (resetBoard s)
        /\ agent1 (resetBoard s) = agent1 s /\ agent2 (resetBoard s) = agent2 s
        /\ eps1 (resetBoard s) = eps1 s /\ eps2 (resetBoard s) = eps2 s
        /\ seed1 (resetBoard s) = seed1 s /\ seed2 (resetBoard s) = seed2 s
        /\ gridSize (resetBoard s) = gridSize s
        /\ twoGrids (resetBoard s) = twoGrids s)
    /\ (forall (l : Lane) (v : string),
           rendered l (app w) = true ->
           let w' := handle (AgentChosen l v) w in
           cleared (app w') /\ timer w' = None
           /\ agentOf l (app w') = v
           /\ agentOf (other l) (app w') = agentOf (other l) (app w)
           /\ epsOf (other l) (app w') = epsOf (other l) (app w)
           /\ seed1 (app w') = seed1 (app w) /\ seed2 (app w') = seed2 (app w))
    /\ (forall (l : Lane) (v : string),
           rendered l (app w) = true -> agentOf l (app w) <> "a*" ->
           let w' := handle (EpsChosen l v) w in
           cleared (app w') /\ timer w' = None
           /\ epsOf l (app w') = v
           /\ epsOf (other l) (app w') = epsOf (other l) (app w)
           /\ agent1 (app w') = agent1 (app w) /\ agent2 (app w') = agent2 (app w)
           /\ seed1 (app w') = seed1 (app w) /\ seed2 (app w') = seed2 (app w))
    /\ (forall v : Z,
           let w' := handle (GridSizeChosen v) w in
           cleared (app w') /\ timer w' = None
           /\ gridSize (app w') = v
           /\ agent1 (app w') = agent1 (app w) /\ agent2 (app w') = agent2 (app w)
           /\ eps1 (app w') = eps1 (app w) /\ eps2 (app w') = eps2 (app w)
           /\ seed1 (app w') = seed1 (app w) /\ seed2 (app w') = seed2 (app w))
    /\ (let w' := handle ToggleClicked w in
        cleared (app w') /\ timer w' = None
        /\ twoGrids (app w') = negb (twoGrids (app w))
        /\ agent1 (app w') = agent1 (app w) /\ agent2 (app w') = agent2 (app w)
        /\ eps1 (app w') = eps1 (app w)
        /\ seed1 (app w') = seed1 (app w) /\ seed2 (app w') = seed2 (app w))
    /\ (forall (l : Lane) (v : string),
           rendered l (app w) = true ->
           handle (SeedTyped l v) w
           = mkWorld (setSeed l (onChange (seedOf l (app w)) v) (app w))
                     (timer w) (flights w)).
Proof.
  intros es w. pose proof (run_Inv es) as I. fold w in I. clearbody w.
  split; [intros s; unfold cleared; cbn; now repeat split|].
  split; [|split; [|split]].
  - intros l v R w'. subst w'. cbn [handle]. unfold selectAgent. rewrite R.
    destruct (@settle_cleared w (setAgent l v (resetBoard (app w))) (flights w) I)
      as [C T]; [destruct l; unfold cleared; cbn; now repeat split|].
    split; [exact C|]. split; [exact T|].
    destruct l; cbn [agentOf epsOf other];
      rewrite settle_agent1, settle_agent2, settle_seed1, settle_seed2,
        ?settle_eps1, ?settle_eps2; cbn in *;
      rewrite ?R, ?String.eqb_refl; cbn;
      rewrite ?andb_false_r; repeat split; try reflexivity;
      destruct (twoGrids (app w)); reflexivity.
  - intros l v R NA w'. subst w'. cbn [handle]. unfold selectEps. rewrite R.
    apply String.eqb_neq in NA. rewrite NA. cbn [negb andb].
    destruct (@settle_cleared w (setEps l v (resetBoard (app w))) (flights w) I)
      as [C T]; [destruct l; unfold cleared; cbn; now repeat split|].
    split; [exact C|]. split; [exact T|].
    destruct l; cbn [agentOf epsOf other];
      rewrite settle_agent1, settle_agent2, settle_seed1, settle_seed2,
        settle_eps1, settle_eps2; cbn in *;
      rewrite ?R, ?String.eqb_refl; cbn;
      rewrite ?andb_false_r; repeat split; try reflexivity;
      destruct (twoGrids (app w)); reflexivity.
  - intros v w'. subst w'. cbn [handle].
    destruct (@settle_cleared w (selectGridSize v (app w)) (flights w) I)
      as [C T]; [unfold cleared; cbn; now repeat split|].
    split; [exact C|]. split; [exact T|].
    rewrite settle_gridSize, settle_agent1, settle_agent2, settle_seed1,
      settle_seed2, settle_eps1, settle_eps2. cbn.
    rewrite !String.eqb_refl. cbn.
    repeat split; destruct (twoGrids (app w)); reflexivity.
  - split.
    + cbn [handle].
      destruct (@settle_cleared w (toggleGrid (app w)) (flights w) I)
        as [C T]; [unfold cleared; cbn; now repeat split|].
      split; [exact C|]. split; [exact T|].
      rewrite settle_twoGrids, settle_agent1, settle_agent2, settle_seed1,
        settle_seed2, settle_eps1. cbn.
      rewrite !String.eqb_refl. now repeat split.
    + intros l v R. cbn [handle]. unfold seedInput. rewrite R.
      unfold settle. rewrite commit_idle; [reflexivity|..];
        destruct l; reflexivity.
Qed.

Lemma controls_clear_board_except_seed_witness :
  let s := mkGameState [12; 11] 6 false false in
  let es := [RunClicked; Responded 0 [s; s]] in
  rendered Lane1 (app (run es)) = true
  /\ gameStates1 (app (run es)) = [s; s]
  /\ cleared (app (handle (AgentChosen Lane1 "apx-ql") (run es))).
Proof.
  intros s es.
  destruct (controls_clear_board_except_seed es) as (_ & A & _).
  split; [reflexivity|]. split; [reflexivity|].
  apply (A Lane1 "apx-ql" eq_refl).
Defined.

(** C4 as stated fails for the seed input: after a run is loaded and playing,
    typing the seed "7" changes the seed of lane 1 and clears nothing. *)
Lemma seed_edit_clears_nothing :
  let s := mkGameState [12; 11] 6 false false in
  let w := run [RunClicked; Responded 0 [s; s]] in
  let w' := handle (SeedTyped Lane1 "7") w in
  seed1 (app w) = "" /\ seed1 (app w') = "7"
  /\ ~ (gameStates1 (app w') = [] /\ gameStates2 (app w') = []
        /\ timeStep (app w') = 0 /\ playing (app w') = false).
Proof.
  vm_compute. split; [reflexivity|]. split; [reflexivity|].
  intros (H & _). discriminate H.
Qed.

(* ================================================================== *)
(** ** Starting playback *)


(** The state after a batch that changes neither an agent nor the lane
    toggle: only the playback effect can run. *)
Lemma settle_app_plain (w : World) (next : App) (fl : list Flight) :
  agent1 (app w) = agent1 next -> agent2 (app w) = agent2 next ->
  twoGrids (app w) = twoGrids next ->
  app (settle w next fl)
  = if playbackDeps (app w) next
    then (if negb (playing next) || (JS.length (gameStates1 next) =? 0)
          then setPlaying false next else next)
    else next.
Proof.
  intros A1 A2 T. unfold settle, commit, playbackDeps, playbackEffect.
  rewrite A1, String.eqb_refl. cbn.
  rewrite A2, String.eqb_refl, T.
  destruct (twoGrids next); cbn; cases; reflexivity.
Qed.




(* ================================================================== *)
(** * Further properties of the code *)

Lemma settle_loading (w : World) (next : App) (fl : list Flight) :
  loading (app (settle w next fl)) = loading next.
Proof. commit_cases. Qed.

Lemma run_from_Inv (es : list Event) :
  forall w, Inv w -> Inv (run_from w es).
Proof.
  induction es as [|e es IH]; intros w I; simpl; [exact I|].
  apply IH, handle_Inv, I.
Qed.

Lemma setPlaying_stopped (s : App) : playing s = false -> setPlaying false s = s.
Proof. destruct s; cbn. now intros ->. Qed.

(** ** A response without snapshots *)

(** X7. An empty response makes [createTableResult] throw before any state
    cell is written: whichever pending call it answers, no state cell and no
    timer changes, so no entry is added and no lane is written; the call is
    over.  After "Run new game" answered by an empty response the loading
    indicator is still on. *)
Theorem empty_response_changes_nothing :
  forall (w : World) (k : nat),
    app (handle (Responded k []) w) = app w
    /\ timer (handle (Responded k []) w) = timer w
    /\ (nth_error (flights w) k <> None ->
        flights (handle (Responded k []) w) = drop_nth k (flights w))
    /\ (let w' := run_from w [RunClicked;
                              Responded (List.length (flights w)) []] in
        loading (app w') = true
        /\ tableRes (app w') = tableRes (app w)
        /\ gameStates1 (app w') = gameStates1 (app w)
        /\ flights w' = flights w).
Proof.
  intros w k.
  assert (E : forall v, handle (Responded k []) v
                        = match nth_error (flights v) k with
                          | Some _ => mkWorld (app v) (timer v)
                                              (drop_nth k (flights v))
                          | None => v
                          end).
  { intros v. cbn [handle]. unfold loadNewGame_resume.
    destruct (nth_error (flights v) k) as [f|]; [|reflexivity].
    destruct (first f); reflexivity. }
  rewrite E. split; [|split; [|split]].
  - destruct (nth_error (flights w) k); reflexivity.
  - destruct (nth_error (flights w) k); reflexivity.
  - destruct (nth_error (flights w) k); [reflexivity|congruence].
  - cbn [run_from fold_left]. set (w1 := handle RunClicked w).
    assert (F1 : flights w1 = (flights w ++ [mkFlight (app w) None])%list)
      by apply settle_flights.
    cbn [handle]. unfold loadNewGame_resume.
    rewrite F1, nth_error_snoc. cbn. rewrite drop_nth_snoc.
    unfold w1. cbn [handle]. unfold loadNewGame_start.
    rewrite settle_loading, settle_tableRes, settle_gameStates1.
    repeat split.
Qed.

(** ** Default training budget *)

Lemma epsEffect_heavy (agent eps : string) :
  agent <> "a*" -> JS.includes agent "deep" = false ->
  JS.mem ["50k"; "75k"; "100k"] (epsEffect agent eps) = true
  /\ (JS.mem ["50k"; "75k"; "100k"] eps = true -> epsEffect agent eps = eps).
Proof.
  intros NA ND. apply String.eqb_neq in NA.
  unfold epsEffect. rewrite NA, ND. cbn [andb].
  destruct (JS.mem ["50k"; "75k"; "100k"] eps) eqn:M; cbn [negb].
  - split; [exact M|reflexivity].
  - split; [reflexivity|discriminate].
Qed.

(** X12. What the [ModelSelect] effect leaves as training budget, by agent
    kind: "N/A" for "a*"; for any other agent whose code does not contain
    "deep", a budget among 50k/75k/100k, the current one if it is among them;
    for an agent whose code contains "deep", "50k" when the current budget is
    one of 1k/3k/5k and "1k" otherwise, so never the current one. *)
Theorem epsEffect_by_agent_kind :
  (forall eps : string, epsEffect "a*" eps = "N/A")
  /\ (forall agent eps : string,
         agent <> "a*" -> JS.includes agent "deep" = false ->
         JS.mem ["50k"; "75k"; "100k"] (epsEffect agent eps) = true
         /\ (JS.mem ["50k"; "75k"; "100k"] eps = true ->
             epsEffect agent eps = eps))
  /\ (forall agent eps : string,
         JS.includes agent "deep" = true ->
         epsEffect agent eps
         = (if JS.mem ["1k"; "3k"; "5k"] eps then "50k" else "1k")
         /\ epsEffect agent eps <> eps).
Proof.
  split; [reflexivity|]. split.
  - intros agent eps NA ND. apply String.eqb_neq in NA.
    unfold epsEffect. rewrite NA, ND. cbn [andb].
    destruct (JS.mem ["50k"; "75k"; "100k"] eps) eqn:M; cbn [negb].
    + split; [exact M|reflexivity].
    + split; [reflexivity|discriminate].
  - intros agent eps D.
    assert (NA : (agent =? "a*")%string = false).
    { destruct (agent =? "a*")%string eqn:E; [|reflexivity].
      apply String.eqb_eq in E. subst agent. discriminate D. }
    unfold epsEffect. rewrite NA, D. cbn [andb].
    destruct (JS.mem ["1k"; "3k"; "5k"] eps) eqn:M; cbn [negb].
    + unfold JS.mem in M. cbn [existsb] in M.
      rewrite !orb_true_iff, !String.eqb_eq in M.
      destruct M as [-> | [-> | [-> | M]]];
        try discriminate M; split; try reflexivity; discriminate.
    + split; [reflexivity|]. intros <-. discriminate M.
Qed.

Lemma epsEffect_by_agent_kind_witness :
  JS.includes "deep-ql" "deep" = true
  /\ epsEffect "deep-ql" "3k" = "50k"
  /\ epsEffect "deep-ql" "50k" = "1k".
Proof.
  split; [reflexivity|].
  destruct epsEffect_by_agent_kind as (_ & _ & D).
  split.
  - apply (proj1 (D "deep-ql" "3k" eq_refl)).
  - apply (proj1 (D "deep-ql" "50k" eq_refl)).
Defined.

(** ** The speed button *)

Lemma cycleSpeed_thrice (s : App) :
  speed s = 1 \/ speed s = 2 \/ speed s = 4 ->
  cycleSpeed (cycleSpeed (cycleSpeed s)) = s.
Proof.
  destruct s; cbn. intros [-> | [-> | ->]]; reflexivity.
Qed.

Lemma SpeedClicked_app (w : World) :
  Inv w -> app (handle SpeedClicked w) = cycleSpeed (app w).
Proof.
  intros I. cbn [handle]. rewrite settle_app_plain by reflexivity.
  destruct (playbackDeps (app w) (cycleSpeed (app w))); [|reflexivity].
  destruct (playing (app w)) eqn:P.
  - assert (G : (JS.length (gameStates1 (app w)) =? 0) = false).
    { apply Z.eqb_neq. rewrite length_zero_iff. now apply (inv_playing I). }
    cbn. now rewrite P, G.
  - cbn. rewrite P. cbn. now apply setPlaying_stopped.
Qed.

(** X9. In every reachable state the speed is 1, 2 or 4; the speed button
    turns 1 into 2, 2 into 4 and 4 into 1 and changes no other state cell, so
    three presses in a row give back the state cells as they were. *)
Theorem speed_cycles_through_1_2_4 :
  forall es : list Event,
    let w := run es in
    (speed (app w) = 1 \/ speed (app w) = 2 \/ speed (app w) = 4)
    /\ app (handle SpeedClicked w) = cycleSpeed (app w)
    /\ speed (app (handle SpeedClicked w))
       = (if speed (app w) =? 1 then 2 else if speed (app w) =? 2 then 4 else 1)
    /\ setSpeed (speed (app w)) (app (handle SpeedClicked w)) = app w
    /\ app (run_from w [SpeedClicked; SpeedClicked; SpeedClicked]) = app w.
Proof.
  intros es w. pose proof (run_Inv es) as I. fold w in I. clearbody w.
  pose proof (inv_speed I) as V.
  split; [exact V|]. split; [now apply SpeedClicked_app|].
  split; [|split].
  - rewrite SpeedClicked_app by assumption. unfold cycleSpeed. cbn.
    destruct V as [-> | [-> | ->]]; reflexivity.
  - rewrite SpeedClicked_app by assumption. now destruct (app w).
  - cbn [run_from fold_left].
    pose proof (handle_Inv SpeedClicked I) as I1.
    pose proof (handle_Inv SpeedClicked I1) as I2.
    rewrite !SpeedClicked_app by assumption.
    now apply cycleSpeed_thrice.
Qed.

(** ** The timer follows the playback state and the speed *)

Lemma settle_period (w : World) (next : App) (fl : list Flight) :
  (forall iv, timer w = Some iv ->
              intervalMs iv = (500 / inject_Z (speed (app w)))%Q) ->
  forall iv, timer (settle w next fl) = Some iv ->
             intervalMs iv
             = (500 / inject_Z (speed (app (settle w next fl))))%Q.
Proof.
  intros H iv. rewrite settle_timer, settle_speed.
  destruct (playbackDeps (app w) next) eqn:D.
  - destruct (playing next && _); [|discriminate].
    intros E. inversion E. reflexivity.
  - intros T. unfold playbackDeps in D. apply orb_false_iff in D as [_ D].
    apply negb_false_iff, Z.eqb_eq in D. rewrite <- D. now apply H.
Qed.

Lemma handle_period (e : Event) (w : World) :
  (forall iv, timer w = Some iv ->
              intervalMs iv = (500 / inject_Z (speed (app w)))%Q) ->
  forall iv, timer (handle e w) = Some iv ->
             intervalMs iv = (500 / inject_Z (speed (app (handle e w))))%Q.
Proof.
  intros H. destruct e; cbn [handle]; try (now apply settle_period).
  - unfold loadNewGame_resume.
    destruct (nth_error (flights w) k) as [f|]; [|exact H].
    destruct (first f); destruct (createTableResult _ _ _ _ _);
      try exact H; cases; now apply settle_period.
  - destruct (nth_error (tableRes (app w)) row); [|exact H].
    now apply settle_period.
  - destruct (timer w) eqn:T; [|now rewrite T].
    apply settle_period. now rewrite T.
Qed.

Lemma run_period (es : list Event) :
  forall iv, timer (run es) = Some iv ->
             intervalMs iv = (500 / inject_Z (speed (app (run es))))%Q.
Proof.
  induction es as [|e es IH] using rev_ind.
  - intros iv H. discriminate H.
  - rewrite run_snoc. now apply handle_period.
Qed.

Lemma timer_None_iff (w : World) :
  Inv w -> (timer w = None <-> playing (app w) = false).
Proof.
  intros I. pose proof (inv_timer I) as [A B]. split; intros H.
  - destruct (playing (app w)); [|reflexivity]. now elim (A eq_refl).
  - destruct (timer w) eqn:T; [|reflexivity].
    assert (N : Some i <> None) by discriminate. apply B in N. congruence.
Qed.

(** X8. In every reachable state a timer is pending exactly when the state is
    playing, and its period is 500 ms divided by the current speed, that is
    500, 250 or 125 ms.  In a stopped state no callback is left to fire: a
    tick changes nothing. *)
Theorem timer_pending_iff_playing :
  forall es : list Event,
    let w := run es in
    (timer w = None <-> playing (app w) = false)
    /\ (forall iv, timer w = Some iv ->
                   intervalMs iv = (500 / inject_Z (speed (app w)))%Q
                   /\ (intervalMs iv == 500 \/ intervalMs iv == 250
                       \/ intervalMs iv == 125)%Q)
    /\ (playing (app w) = false -> handle Ticked w = w).
Proof.
  intros es w. pose proof (run_Inv es) as I. fold w in I.
  split; [now apply timer_None_iff|]. split.
  - intros iv T. pose proof (@run_period es iv T) as P. fold w in P.
    split; [exact P|]. rewrite P.
    destruct (inv_speed I) as [-> | [-> | ->]];
      [left|right; left|right; right]; reflexivity.
  - intros P. apply (timer_None_iff I) in P. cbn [handle]. now rewrite P.
Qed.

Lemma timer_pending_iff_playing_witness :
  let s := mkGameState [12; 11] 6 false false in
  let es := [RunClicked; Responded 0 [s; s; s]; SpeedClicked] in
  exists iv, timer (run es) = Some iv /\ (intervalMs iv == 250)%Q.
Proof.
  intros s es.
  destruct (timer (run es)) as [iv|] eqn:T; [|discriminate T].
  exists iv. split; [reflexivity|].
  destruct (timer_pending_iff_playing es) as (_ & P & _).
  rewrite (proj1 (P iv T)). reflexivity.
Defined.

(** ** Stepping forth and back *)

Lemma ForwardClicked_facts (w : World) :
  Inv w ->
  let w' := handle ForwardClicked w in
  timeStep (app w')
  = (if timeStep (app w) <? ceiling (app w) then timeStep (app w) + 1
     else timeStep (app w))
  /\ gameStates1 (app w') = gameStates1 (app w)
  /\ gameStates2 (app w') = gameStates2 (app w)
  /\ playing (app w') = false.
Proof.
  intros I. cbn zeta. cbn [handle].
  rewrite settle_timeStep, settle_gameStates1, settle_gameStates2.
  destruct (@settle_stops w (stepForward (app w)) (flights w) I eq_refl) as [P _].
  repeat split; auto.
Qed.

Lemma BackClicked_facts (w : World) :
  Inv w ->
  let w' := handle BackClicked w in
  timeStep (app w')
  = (if 0 <? timeStep (app w) then timeStep (app w) - 1 else timeStep (app w))
  /\ gameStates1 (app w') = gameStates1 (app w)
  /\ gameStates2 (app w') = gameStates2 (app w)
  /\ playing (app w') = false.
Proof.
  intros I. cbn zeta. cbn [handle].
  rewrite settle_timeStep, settle_gameStates1, settle_gameStates2.
  destruct (@settle_stops w (stepBack (app w)) (flights w) I eq_refl) as [P _].
  repeat split; auto. cbn. now rewrite Z.gtb_ltb.
Qed.

(** X13. In a reachable state, "Forward" then "Back" brings the cursor back
    whenever it was strictly below the ceiling, and "Back" then "Forward"
    brings it back whenever it was positive and at most the ceiling; at the
    ceiling "Forward" then "Back" loses one step, and at 0 "Back" then
    "Forward" gains one when the ceiling is positive. *)
Theorem forward_and_back_undo_each_other :
  forall es : list Event,
    let w := run es in
    let t := timeStep (app w) in
    let c := ceiling (app w) in
    (t < c -> timeStep (app (run_from w [ForwardClicked; BackClicked])) = t)
    /\ (0 < t <= c ->
        timeStep (app (run_from w [BackClicked; ForwardClicked])) = t)
    /\ (c <= t -> 0 < t ->
        timeStep (app (run_from w [ForwardClicked; BackClicked])) = t - 1)
    /\ (t = 0 -> 0 < c ->
        timeStep (app (run_from w [BackClicked; ForwardClicked])) = 1).
Proof.
  intros es w t c. pose proof (run_Inv es) as I. fold w in I.
  pose proof (inv_cursor I) as T0. fold t in T0.
  cbn [run_from fold_left].
  destruct (ForwardClicked_facts I) as (F & F1 & F2 & _).
  destruct (BackClicked_facts I) as (B & B1 & B2 & _).
  destruct (ForwardClicked_facts (handle_Inv BackClicked I)) as (BF & _).
  destruct (BackClicked_facts (handle_Inv ForwardClicked I)) as (FB & _).
  unfold ceiling in *. rewrite B1, B2 in BF. fold c in F, BF. fold t in F, B.
  rewrite FB, F. rewrite BF, B. clear FB BF F B.
  repeat split; intros;
    repeat match goal with
           | |- context [?a <? ?b] => destruct (Z.ltb_spec a b)
           end; lia.
Qed.

Lemma forward_and_back_undo_each_other_witness :
  let s := mkGameState [12; 11] 6 false false in
  let w := run [RunClicked; Responded 0 [s; s; s]] in
  timeStep (app w) < ceiling (app w)
  /\ timeStep (app (run_from w [ForwardClicked; BackClicked])) = 0.
Proof.
  intros s w.
  assert (H : timeStep (app w) < ceiling (app w)) by (vm_compute; reflexivity).
  split; [exact H|].
  destruct (forward_and_back_undo_each_other
              [RunClicked; Responded 0 [s; s; s]]) as (F & _).
  fold w in F. rewrite (F H). reflexivity.
Defined.

(** ** Restoring twice *)

(** X14. In a reachable state, pressing the same replay button of a history
    row twice leaves the lane with the entry's snapshots, agent code and
    training budget, the grid size of the entry, the cursor at 0 and playback
    stopped: the second press finds the agent already in place, so the
    [ModelSelect] effect does not run after it. *)
Theorem restoring_twice_copies_the_entry :
  forall (es : list Event) (l : Lane) (row : nat) (res : TableResult.t),
    let w := run es in
    nth_error (tableRes (app w)) row = Some res ->
    let w' := run_from w [ReplayClicked l row; ReplayClicked l row] in
    gameStatesOf l (app w') = TableResult.replay res
    /\ agentOf l (app w') = TableResult.agentCode res
    /\ epsOf l (app w') = TableResult.train res
    /\ gridSize (app w') = TableResult.replaySize res
    /\ timeStep (app w') = 0
    /\ playing (app w') = false.
Proof.
  intros es l row res w E w'. subst w'. cbn [run_from fold_left].
  pose proof (run_Inv es) as I. fold w in I.
  destruct (@restore_effects w l row res I E)
    as (_ & A1 & _ & _ & _ & _ & _ & _ & _ & _ & _ & TG & TR).
  set (w1 := handle (ReplayClicked l row) w) in *.
  pose proof (handle_Inv (ReplayClicked l row) I) as I1. fold w1 in I1.
  rewrite <- TR in E.
  destruct (@restore_effects w1 l row res I1 E)
    as (G & A & EP & GS & T0 & P0 & _).
  repeat split; try assumption.
  rewrite EP. destruct l; cbn [epsEffectRuns agentOf] in *.
  - now rewrite A1, String.eqb_refl.
  - now rewrite TG, A1, String.eqb_refl.
Qed.

Lemma restoring_twice_copies_the_entry_witness :
  let s := mkGameState [12; 11] 6 false true in
  let es := [AgentChosen Lane1 "deep-ql"; RunClicked; Responded 0 [s; s];
             AgentChosen Lane1 "a*"] in
  exists res,
    nth_error (tableRes (app (run es))) 0 = Some res
    /\ eps1 (app (handle (ReplayClicked Lane1 0) (run es))) = "50k"
    /\ eps1 (app (run_from (run es)
                    [ReplayClicked Lane1 0; ReplayClicked Lane1 0])) = "1k".
Proof.
  intros s es.
  destruct (nth_error (tableRes (app (run es))) 0) as [res|] eqn:E;
    [|discriminate E].
  exists res. split; [reflexivity|]. split; [reflexivity|].
  destruct (@restoring_twice_copies_the_entry es Lane1 0 res E)
    as (_ & _ & EP & _).
  cbn [epsOf] in EP. rewrite EP. now inversion E.
Defined.

(** ** Auto-play runs to the end and stops *)

Lemma Ticked_advances (w : World) (iv : Interval) :
  Inv w -> timer w = Some iv -> timeStep (app w) < cap iv ->
  let w' := handle Ticked w in
  timeStep (app w') = timeStep (app w) + 1
  /\ timer w' = Some iv
  /\ gameStates1 (app w') = gameStates1 (app w)
  /\ gameStates2 (app w') = gameStates2 (app w).
Proof.
  intros I T L. cbn zeta. cbn [handle]. rewrite T.
  assert (P : playing (app w) = true).
  { apply (inv_timer I). congruence. }
  assert (Hn : tick iv (app w) = setTimeStep (timeStep (app w) + 1) (app w)).
  { unfold tick. fold (cap iv). rewrite Z.geb_leb.
    destruct (Z.leb_spec (cap iv) (timeStep (app w))); [lia|reflexivity]. }
  rewrite settle_timeStep, settle_timer, settle_gameStates1,
    settle_gameStates2, Hn.
  unfold playbackDeps. cbn. rewrite eqb_reflx, Z.eqb_refl. cbn.
  now repeat split.
Qed.

Lemma Ticked_stops (w : World) (iv : Interval) :
  Inv w -> timer w = Some iv -> cap iv <= timeStep (app w) ->
  let w' := handle Ticked w in
  timeStep (app w') = timeStep (app w)
  /\ playing (app w') = false /\ timer w' = None
  /\ gameStates1 (app w') = gameStates1 (app w)
  /\ gameStates2 (app w') = gameStates2 (app w).
Proof.
  intros I T L. cbn zeta. cbn [handle]. rewrite T.
  assert (Hn : tick iv (app w) = setPlaying false (app w)).
  { unfold tick. fold (cap iv). rewrite Z.geb_leb.
    destruct (Z.leb_spec (cap iv) (timeStep (app w))); [reflexivity|lia]. }
  rewrite settle_timeStep, settle_gameStates1, settle_gameStates2, Hn.
  destruct (@settle_stops w (setPlaying false (app w)) (flights w) I eq_refl).
  now repeat split.
Qed.

Lemma ticks_advance (n : nat) :
  forall (w : World) (iv : Interval),
    Inv w -> timer w = Some iv ->
    timeStep (app w) + Z.of_nat n <= cap iv ->
    let w' := run_from w (ticks n) in
    Inv w'
    /\ timeStep (app w') = timeStep (app w) + Z.of_nat n
    /\ timer w' = Some iv
    /\ gameStates1 (app w') = gameStates1 (app w)
    /\ gameStates2 (app w') = gameStates2 (app w).
Proof.
  induction n as [|n IH]; intros w iv I T L.
  - cbn. split; [exact I|]. repeat split; auto. lia.
  - cbn zeta. change (ticks (S n)) with (Ticked :: ticks n).
    cbn [run_from fold_left].
    destruct (@Ticked_advances w iv I T) as (A1 & A2 & A3 & A4); [lia|].
    destruct (IH (handle Ticked w) iv (handle_Inv Ticked I) A2)
      as (J & B1 & B2 & B3 & B4); [lia|].
    unfold run_from in *.
    split; [exact J|]. repeat split; try congruence. lia.
Qed.

(** X10. Auto-play terminates.  In a reachable state with a pending timer
    whose callback captured lanes of ceiling [c], as long as only ticks
    happen: the cursor goes up by one per tick until it is [c] (it stays where
    it is when it is already past [c]), the lanes are not touched, and the
    tick after that stops playback and cancels the timer without moving the
    cursor. *)
Theorem autoplay_runs_to_the_captured_end :
  forall (es : list Event) (iv : Interval),
    let w := run es in
    timer w = Some iv ->
    let c := cap iv in
    let n := Z.to_nat (c - timeStep (app w)) in
    let w1 := run_from w (ticks n) in
    let w2 := handle Ticked w1 in
    (forall m, (m <= n)%nat ->
               timeStep (app (run_from w (ticks m)))
               = timeStep (app w) + Z.of_nat m
               /\ playing (app (run_from w (ticks m))) = true)
    /\ timeStep (app w1) = Z.max (timeStep (app w)) c
    /\ timeStep (app w2) = Z.max (timeStep (app w)) c
    /\ playing (app w2) = false /\ timer w2 = None
    /\ gameStates1 (app w2) = gameStates1 (app w)
    /\ gameStates2 (app w2) = gameStates2 (app w).
Proof.
  intros es iv w T c n w1 w2. pose proof (run_Inv es) as I. fold w in I.
  assert (A : forall m, (m <= n)%nat ->
                        timeStep (app w) + Z.of_nat m <= cap iv
                        \/ m = 0%nat) by (intros m; subst n c; lia).
  assert (S : forall m, (m <= n)%nat ->
              let v := run_from w (ticks m) in
              Inv v /\ timeStep (app v) = timeStep (app w) + Z.of_nat m
              /\ timer v = Some iv
              /\ gameStates1 (app v) = gameStates1 (app w)
              /\ gameStates2 (app v) = gameStates2 (app w)).
  { intros m Hm. destruct (A m Hm) as [L | ->].
    - now apply ticks_advance.
    - cbn. split; [exact I|]. repeat split; auto. lia. }
  split.
  - intros m Hm. destruct (S m Hm) as (J & E & Tm & _). split; [exact E|].
    apply (inv_timer J). congruence.
  - destruct (S n (le_n n)) as (J & E & Tn & G1 & G2). fold w1 in J, E, Tn, G1, G2.
    assert (E1 : timeStep (app w1) = Z.max (timeStep (app w)) c)
      by (rewrite E; subst n c; lia).
    destruct (@Ticked_stops w1 iv J Tn) as (B1 & B2 & B3 & B4 & B5);
      [fold c; lia|].
    fold w2 in B1, B2, B3, B4, B5.
    repeat split; try assumption; congruence.
Qed.

Lemma autoplay_runs_to_the_captured_end_witness :
  let s := mkGameState [12; 11] 6 false false in
  let es := [RunClicked; Responded 0 [s; s; s]] in
  exists iv,
    timer (run es) = Some iv
    /\ timeStep (app (run_from (run es) (ticks 2))) = 2
    /\ playing (app (handle Ticked (run_from (run es) (ticks 2)))) = false.
Proof.
  intros s es.
  destruct (timer (run es)) as [iv|] eqn:T; [|discriminate T].
  exists iv. split; [reflexivity|].
  assert (C : cap iv = 2) by (inversion T; reflexivity).
  destruct (@autoplay_runs_to_the_captured_end es iv T)
    as (_ & E1 & _ & P2 & _).
  rewrite C in E1, P2. split; [exact E1|exact P2].
Defined.

(** ** The cursor stays under the ceiling *)

Lemma calm_reachable (w : World) : calm w -> reachable w.
Proof. induction 1; now constructor. Qed.

Lemma settle_bound (w : World) (next : App) (fl : list Flight) :
  timeStep next <= Z.max 0 (ceiling next) ->
  timeStep (app (settle w next fl))
  <= Z.max 0 (ceiling (app (settle w next fl))).
Proof.
  unfold ceiling.
  now rewrite settle_timeStep, settle_gameStates1, settle_gameStates2.
Qed.

Lemma handle_bound (e : Event) (w : World) :
  Inv w -> fresh w ->
  (forall k d, e = Responded k d -> playing (app w) = false) ->
  timeStep (app w) <= Z.max 0 (ceiling (app w)) ->
  timeStep (app (handle e w)) <= Z.max 0 (ceiling (app (handle e w))).
Proof.
  intros I F _ B. pose proof (inv_cursor I) as C.
  destruct e; cbn [handle]; try (apply settle_bound; cbn; lia).
  - unfold selectAgent. cases; apply settle_bound; destruct l; cbn; lia.
  - unfold selectEps. cases; apply settle_bound; destruct l; cbn; lia.
  - unfold seedInput. cases; apply settle_bound; destruct l; cbn; exact B.
  - unfold loadNewGame_start. apply settle_bound. exact B.
  - unfold loadNewGame_resume.
    destruct (nth_error (flights w) k) as [f|]; [|exact B].
    destruct (first f); destruct (createTableResult _ _ _ _ _);
      try exact B; cases; apply settle_bound; cbn; (exact B || lia).
  - apply settle_bound. unfold stepBack, ceiling in *. cbn.
    destruct (timeStep (app w) >? 0); lia.
  - apply settle_bound. unfold playOrRestart. cases; cbn; (exact B || lia).
  - apply settle_bound. unfold stepForward, ceiling, maxStep in *. cbn.
    destruct (Z.ltb_spec (timeStep (app w))
                (Z.max (JS.length (gameStates1 (app w)))
                       (JS.length (gameStates2 (app w))) - 1)); lia.
  - apply settle_bound. exact B.
  - destruct (nth_error (tableRes (app w)) row); [|exact B].
    apply settle_bound. unfold restore. destruct l; cases; cbn; lia.
  - destruct (timer w) as [iv|] eqn:T; [|exact B].
    destruct (F iv T) as [E1 E2].
    apply settle_bound. unfold tick, ceiling in *. rewrite E1, E2, Z.geb_leb.
    destruct (Z.leb_spec (Z.max (JS.length (gameStates1 (app w)))
                                (JS.length (gameStates2 (app w))) - 1)
                         (timeStep (app w))); cbn; lia.
Qed.

(** X11. As long as no response to [loadNewGame] arrives while the state is
    playing, the timer callback sees the lanes of the current render and the
    cursor never passes the ceiling [max(lane1.length, lane2.length) - 1]
    (it is 0 when that ceiling is negative). *)
Theorem cursor_within_ceiling_when_calm :
  forall w : World,
    calm w ->
    fresh w
    /\ 0 <= timeStep (app w) <= Z.max 0 (ceiling (app w)).
Proof.
  induction 1 as [|e w Cw [F [C B]] NR].
  - split; [apply fresh_boot|]. cbn. lia.
  - pose proof (reachable_Inv (calm_reachable Cw)) as I.
    split; [|split].
    + destruct e; try (apply fresh_kept; [assumption..|discriminate]).
      apply fresh_response_when_stopped; [exact I|].
      now apply (NR k data).
    + apply (inv_cursor (handle_Inv e I)).
    + now apply handle_bound.
Qed.

Lemma cursor_within_ceiling_when_calm_witness :
  let s := mkGameState [12; 11] 6 false false in
  let w := handle Ticked (handle (Responded 0 [s; s]) (handle RunClicked boot)) in
  calm w /\ timeStep (app w) <= Z.max 0 (ceiling (app w)).
Proof.
  intros s w.
  assert (C : calm w).
  { unfold w. repeat (apply calm_step; [|try discriminate]).
    - apply calm_boot.
    - intros k d _. reflexivity. }
  split; [exact C|].
  apply (cursor_within_ceiling_when_calm C).
Defined.

(** ** Entries of the ledger *)

Lemma createTableResult_fields gridSize agent eps endIndex
      (data : list GameState) (r : TableResult.t) :
  createTableResult gridSize agent eps endIndex data = Some r ->
  TableResult.replaySize r = gridSize /\ TableResult.agentCode r = agent
  /\ TableResult.train r = eps /\ TableResult.replay r = data
  /\ TableResult.moveCount r = endIndex
  /\ TableResult.agent r = nameMap agent
  /\ TableResult.finalLength r = TableResult.fruitCount r + 1
  /\ 0 <= TableResult.finalLength r
  /\ (TableResult.outcome r = "Won" \/ TableResult.outcome r = "Lost").
Proof.
  unfold createTableResult. destruct (JS.get data endIndex) as [g|];
    cbn [bind]; [|discriminate].
  intros H. inversion H. cbn.
  repeat split; try lia; try apply length_nonneg.
  destruct (won g); [now left|now right].
Qed.

Lemma createTableResult_summary gridSize agent eps
      (data : list GameState) (r : TableResult.t) :
  createTableResult gridSize agent eps (JS.length data - 1) data = Some r ->
  summaryOf r = Some r.
Proof.
  intros H. destruct (createTableResult_fields _ _ _ _ _ H)
    as (E1 & E2 & E3 & E & _).
  unfold summaryOf. now rewrite E1, E2, E3, E.
Qed.

Lemma handle_summaries (e : Event) (w : World) :
  Forall (fun r => summaryOf r = Some r) (tableRes (app w)) ->
  Forall (fun r => summaryOf r = Some r) (tableRes (app (handle e w))).
Proof.
  intros H.
  destruct e;
    try (rewrite handle_tableRes_other by (intros; discriminate); exact H).
  cbn [handle]. unfold loadNewGame_resume.
  destruct (nth_error (flights w) k) as [f|]; [|exact H].
  destruct (first f);
    destruct (createTableResult _ _ _ _ data) as [r|] eqn:C; try exact H;
    apply createTableResult_summary in C;
    cases; rewrite settle_tableRes; cbn; now constructor.
Qed.

Lemma run_summaries (es : list Event) :
  Forall (fun r => summaryOf r = Some r) (tableRes (app (run es))).
Proof.
  induction es as [|e es IH] using rev_ind; [constructor|].
  rewrite run_snoc. now apply handle_summaries.
Qed.

(** X5. Every entry of the ledger of a reachable state is exactly what
    [createTableResult] computes from the entry's own replay, agent code,
    training label and grid size.  So its replay is not empty, its move count
    is the index of the last snapshot of its replay, its final length is its
    fruit count plus one, its displayed agent is [nameMap] of its agent code
    and its outcome is "Won" or "Lost". *)
Theorem ledger_entries_summarise_their_replay :
  forall es : list Event,
    Forall (fun r =>
              summaryOf r = Some r
              /\ TableResult.replay r <> []
              /\ TableResult.moveCount r = JS.length (TableResult.replay r) - 1
              /\ 0 <= TableResult.moveCount r
              /\ TableResult.finalLength r = TableResult.fruitCount r + 1
              /\ TableResult.agent r = nameMap (TableResult.agentCode r)
              /\ (TableResult.outcome r = "Won"
                  \/ TableResult.outcome r = "Lost"))
           (tableRes (app (run es))).
Proof.
  intros es.
  eapply Forall_impl; [|apply run_summaries]. cbn beta. intros r Hr.
  pose proof (createTableResult_replay _ _ _ _ Hr) as [_ Hne].
  destruct (createTableResult_fields _ _ _ _ _ Hr)
    as (_ & _ & _ & _ & M & A & FL & _ & O).
  assert (JS.length (TableResult.replay r) <> 0) by now rewrite length_zero_iff.
  pose proof (length_nonneg (TableResult.replay r)).
  repeat split; try assumption; lia.
Qed.

(** ** A response applies the configuration of the click *)

Lemma handle_flights_grow (e : Event) (w : World) :
  (forall k d, e <> Responded k d) ->
  exists more, flights (handle e w) = (flights w ++ more)%list.
Proof.
  intros NR.
  destruct e; cbn [handle];
    try (rewrite settle_flights; exists []; now rewrite app_nil_r).
  - unfold loadNewGame_start. rewrite settle_flights. eauto.
  - now elim (NR k data).
  - destruct (nth_error (tableRes (app w)) row);
      rewrite ?settle_flights; exists []; now rewrite app_nil_r.
  - destruct (timer w);
      rewrite ?settle_flights; exists []; now rewrite app_nil_r.
Qed.

Lemma run_from_flights_grow (es : list Event) :
  Forall (fun e => forall k d, e <> Responded k d) es ->
  forall w, exists more, flights (run_from w es) = (flights w ++ more)%list.
Proof.
  induction 1 as [|e es He _ IH]; intros w; cbn [run_from fold_left].
  - exists []. now rewrite app_nil_r.
  - destruct (IH (handle e w)) as [m2 E2].
    destruct (handle_flights_grow w He) as [m1 E1].
    exists (m1 ++ m2)%list. unfold run_from in E2.
    now rewrite E2, E1, app_assoc.
Qed.

(** X6. The race named in the source.  After "Run new game" with one lane,
    whatever controls are used while the request is pending (no response in
    between), a non-empty response still starts playback of its snapshots in
    lane 1 from cursor 0, and its entry records the agent, training budget
    and grid size of the moment of the click; the grid size and the agent on
    screen stay what the controls made them in between. *)
Theorem response_applies_configuration_of_the_click :
  forall (w : World) (es : list Event) (data : list GameState),
    Forall (fun e => forall k d, e <> Responded k d) es ->
    twoGrids (app w) = false ->
    data <> [] ->
    let w1 := run_from w (RunClicked :: es) in
    let w2 := handle (Responded (List.length (flights w)) data) w1 in
    exists r,
      createTableResult (gridSize (app w)) (agent1 (app w)) (eps1 (app w))
                        (JS.length data - 1) data = Some r
      /\ TableResult.replaySize r = gridSize (app w)
      /\ TableResult.agentCode r = agent1 (app w)
      /\ TableResult.train r = eps1 (app w)
      /\ tableRes (app w2) = r :: tableRes (app w1)
      /\ gameStates1 (app w2) = data
      /\ gameStates2 (app w2) = gameStates2 (app w1)
      /\ timeStep (app w2) = 0
      /\ playing (app w2) = true
      /\ loading (app w2) = false
      /\ gridSize (app w2) = gridSize (app w1)
      /\ agent1 (app w2) = agent1 (app w1).
Proof.
  intros w es data NR T D w1 w2.
  destruct (@createTableResult_total (gridSize (app w)) (agent1 (app w))
              (eps1 (app w)) data D) as [r C].
  exists r. split; [exact C|].
  destruct (createTableResult_fields _ _ _ _ _ C) as (R1 & R2 & R3 & _).
  split; [exact R1|]. split; [exact R2|]. split; [exact R3|].
  assert (F : nth_error (flights w1) (List.length (flights w))
              = Some (mkFlight (app w) None)).
  { subst w1. cbn [run_from fold_left].
    destruct (run_from_flights_grow NR (handle RunClicked w)) as [more E].
    unfold run_from in E. rewrite E. cbn [handle]. unfold loadNewGame_start.
    rewrite settle_flights, <- app_assoc.
    rewrite nth_error_app2, Nat.sub_diag by lia. reflexivity. }
  subst w2. cbn [handle].
  rewrite (@resume_single w1 _ (mkFlight (app w) None) data r F);
    try assumption; try reflexivity.
  rewrite settle_tableRes, settle_gameStates1, settle_gameStates2,
    settle_timeStep, settle_playing, settle_loading, settle_gridSize,
    settle_agent1. cbn.
  assert (G : (JS.length data =? 0) = false)
    by (apply Z.eqb_neq; now rewrite length_zero_iff).
  rewrite G. destruct (playbackDeps _ _); now repeat split.
Qed.

Lemma response_applies_configuration_of_the_click_witness :
  let s := mkGameState [12; 11] 6 false true in
  let w1 := run_from boot [RunClicked; GridSizeChosen 7] in
  let w2 := handle (Responded 0 [s; s]) w1 in
  exists r,
    tableRes (app w2) = [r]
    /\ TableResult.replaySize r = 5
    /\ gridSize (app w2) = 7
    /\ gameStates1 (app w2) = [s; s].
Proof.
  intros s w1 w2.
  assert (NR : Forall (fun e => forall k d, e <> Responded k d)
                      [GridSizeChosen 7])
    by (repeat constructor; discriminate).
  assert (D : [s; s] <> []) by discriminate.
  destruct (@response_applies_configuration_of_the_click
              boot [GridSizeChosen 7] [s; s] NR eq_refl D)
    as (r & _ & R1 & _ & _ & TR & G1 & _ & _ & _ & _ & GS & _).
  exists r. split; [exact TR|]. split; [exact R1|].
  split; [exact (eq_trans GS eq_refl)|exact G1].
Defined.

(** ** The colour gradient *)

Lemma snakeColor_t_range (x : Q) : (0 <= Qmax 0 (Qmin 1 x) <= 1)%Q.
Proof.
  split; [apply Q.le_max_l|].
  apply Q.max_lub; [discriminate|apply Q.le_min_l].
Qed.

Lemma ratio_le (a b m : Z) :
  0 < m -> a <= b -> (inject_Z a / inject_Z m <= inject_Z b / inject_Z m)%Q.
Proof.
  intros Hm Hab. unfold Qdiv. apply Qmult_le_compat_r.
  - now rewrite <- Zle_Qle.
  - apply Qinv_le_0_compat. change 0%Q with (inject_Z 0).
    rewrite <- Zle_Qle. lia.
Qed.

Lemma snakeColor_inside (index maxScale : Z) :
  0 < maxScale -> 0 <= index <= maxScale ->
  (snakeColor index maxScale
   == 30 + 60 * (inject_Z (maxScale - index) / inject_Z maxScale))%Q.
Proof.
  intros Hm Hi. unfold snakeColor. cbn zeta.
  assert (P : (0 < inject_Z maxScale)%Q).
  { change 0%Q with (inject_Z 0). rewrite <- Zlt_Qlt. lia. }
  assert (U : (inject_Z (maxScale - index) / inject_Z maxScale <= 1)%Q).
  { apply Qle_shift_div_r; [exact P|]. rewrite Qmult_1_l.
    rewrite <- Zle_Qle. lia. }
  assert (L : (0 <= inject_Z (maxScale - index) / inject_Z maxScale)%Q).
  { apply Qle_shift_div_l; [exact P|]. rewrite Qmult_0_l.
    change 0%Q with (inject_Z 0). rewrite <- Zle_Qle. lia. }
  rewrite (Q.min_r _ _ U), (Q.max_r _ _ L). lra.
Qed.

(** X1. For a positive scale the lightness computed by [snakeColor] is
    clamped: it lies between 30 and 90 for every index, it is 90 for every
    index at or below 0 and 30 for every index at or above the scale, it does
    not grow with the index, and for an index between 0 and the scale it is
    [30 + 60 * (maxScale - index) / maxScale]. *)
Theorem snakeColor_is_clamped :
  forall index maxScale : Z,
    0 < maxScale ->
    (30 <= snakeColor index maxScale <= 90)%Q
    /\ (index <= 0 -> (snakeColor index maxScale == 90)%Q)
    /\ (maxScale <= index -> (snakeColor index maxScale == 30)%Q)
    /\ (forall index' : Z,
           index <= index' ->
           (snakeColor index' maxScale <= snakeColor index maxScale)%Q)
    /\ (0 <= index <= maxScale ->
        (snakeColor index maxScale
         == 30 + 60 * (inject_Z (maxScale - index) / inject_Z maxScale))%Q).
Proof.
  intros index maxScale Hm.
  assert (P : (0 < inject_Z maxScale)%Q).
  { change 0%Q with (inject_Z 0). rewrite <- Zlt_Qlt. lia. }
  split; [|split; [|split; [|split]]].
  - unfold snakeColor. cbn zeta.
    pose proof (snakeColor_t_range
                  (inject_Z (maxScale - index) / inject_Z maxScale)) as [L U].
    split; lra.
  - intros Hi. unfold snakeColor. cbn zeta.
    assert (U : (1 <= inject_Z (maxScale - index) / inject_Z maxScale)%Q).
    { apply Qle_shift_div_l; [exact P|]. rewrite Qmult_1_l.
      rewrite <- Zle_Qle. lia. }
    rewrite (Q.min_l _ _ U), (Q.max_r 0 1) by discriminate. reflexivity.
  - intros Hi. unfold snakeColor. cbn zeta.
    assert (L : (inject_Z (maxScale - index) / inject_Z maxScale <= 0)%Q).
    { apply Qle_shift_div_r; [exact P|]. rewrite Qmult_0_l.
      change 0%Q with (inject_Z 0). rewrite <- Zle_Qle. lia. }
    assert (L1 : (inject_Z (maxScale - index) / inject_Z maxScale <= 1)%Q)
      by lra.
    rewrite (Q.min_r _ _ L1), (Q.max_l _ _ L). reflexivity.
  - intros index' Hi. unfold snakeColor. cbn zeta.
    assert (R : (inject_Z (maxScale - index') / inject_Z maxScale
                 <= inject_Z (maxScale - index) / inject_Z maxScale)%Q)
      by (apply ratio_le; lia).
    apply (Q.min_le_compat_l _ _ 1) in R.
    apply (Q.max_le_compat_l _ _ 0) in R. lra.
  - intros Hi. now apply snakeColor_inside.
Qed.

Lemma snakeColor_is_clamped_witness :
  0 < 9 /\ 0 <= 3 <= 9
  /\ (snakeColor 3 9 == 70)%Q /\ (snakeColor 12 9 == 30)%Q.
Proof.
  assert (H : 0 < 9) by lia.
  split; [exact H|]. split; [lia|].
  destruct (snakeColor_is_clamped 3 H) as (_ & _ & _ & _ & E).
  destruct (snakeColor_is_clamped 12 H) as (_ & _ & T & _).
  split; [rewrite E by lia; reflexivity|apply T; lia].
Defined.

(** ** The cells of the grid *)

Lemma mapM_length {A B} (f : A -> option B) (l : list A) :
  forall bs, mapM f l = Some bs -> List.length bs = List.length l.
Proof.
  induction l as [|a l IH]; cbn [mapM]; intros bs H.
  - now inversion H.
  - destruct (f a); cbn [bind] in H; [|discriminate].
    destruct (mapM f l) as [bs'|]; cbn [bind] in H; [|discriminate].
    inversion H. cbn. now rewrite (IH bs').
Qed.

Lemma mapM_nth {A B} (f : A -> option B) (l : list A) :
  forall bs n a,
    mapM f l = Some bs -> nth_error l n = Some a ->
    exists b, nth_error bs n = Some b /\ f a = Some b.
Proof.
  induction l as [|x l IH]; cbn [mapM]; intros bs n a H N.
  - destruct n; discriminate N.
  - destruct (f x) as [y|] eqn:Fx; cbn [bind] in H; [|discriminate].
    destruct (mapM f l) as [bs'|]; cbn [bind] in H; [|discriminate].
    inversion H; subst. destruct n as [|n]; cbn in N |- *.
    + inversion N; subst. eauto.
    + now apply IH.
Qed.

Lemma from_length_length {A} (n : Z) (f : Z -> A) :
  List.length (JS.from_length n f) = Z.to_nat n.
Proof. unfold JS.from_length. now rewrite length_map, length_seq. Qed.

Lemma from_length_nth {A} (n : Z) (f : Z -> A) (k : nat) :
  (k < Z.to_nat n)%nat ->
  nth_error (JS.from_length n f) k = Some (f (Z.of_nat k)).
Proof.
  intros H. unfold JS.from_length.
  rewrite nth_error_map, nth_error_seq.
  destruct (Nat.ltb_spec k (Z.to_nat n)); [reflexivity|lia].
Qed.


Lemma indexOf_from_spec (a : list Z) (x : Z) :
  forall k0,
    (JS.indexOf_from a x k0 = -1 /\ ~ In x a)
    \/ (k0 <= JS.indexOf_from a x k0
        /\ nth_error a (Z.to_nat (JS.indexOf_from a x k0 - k0)) = Some x)
    \/ k0 < 0.
Proof.
  induction a as [|y a IH]; intros k0; cbn [JS.indexOf_from].
  - left. split; [reflexivity|intros []].
  - destruct (Z.eqb_spec y x) as [->|N].
    + destruct (Z.ltb_spec k0 0); [now right; right|].
      right; left. split; [lia|]. now rewrite Z.sub_diag.
    + destruct (Z.ltb_spec k0 0); [now right; right|].
      destruct (IH (k0 + 1)) as [[E NI] | [[L E] | L]]; [| |lia].
      * left. split; [exact E|]. intros [H'|H']; [congruence|contradiction].
      * right; left. split; [lia|].
        replace (Z.to_nat (JS.indexOf_from a x (k0 + 1) - k0))
          with (S (Z.to_nat (JS.indexOf_from a x (k0 + 1) - (k0 + 1)))) by lia.
        exact E.
Qed.

Lemma indexOf_spec (a : list Z) (x : Z) :
  (JS.indexOf a x = -1 /\ ~ In x a)
  \/ (0 <= JS.indexOf a x
      /\ nth_error a (Z.to_nat (JS.indexOf a x)) = Some x /\ In x a).
Proof.
  unfold JS.indexOf.
  destruct (indexOf_from_spec a x 0) as [H | [[L E] | L]]; [now left| |lia].
  right. rewrite Z.sub_0_r in E. repeat split; try assumption.
  now apply nth_error_In in E.
Qed.

Lemma generateGrid_cellOf (gridSize timeStep : Z) (gameStates : list GameState) :
  generateGrid gridSize timeStep gameStates
  = mapM (cellOf gridSize timeStep gameStates)
         (JS.from_length (gridSize * gridSize) (fun i => i)).
Proof. reflexivity. Qed.

Lemma Grid_parts (gridSize timeStep : Z) (gameStates : list GameState)
      (v : GridView) :
  Grid gridSize timeStep gameStates = Some v ->
  generateGrid gridSize timeStep gameStates = Some (cells v)
  /\ moves v = effectiveStep timeStep gameStates
  /\ (forall snap,
         JS.get gameStates (effectiveStep timeStep gameStates) = Some snap ->
         fruits v = JS.length (snake snap) - 1)
  /\ (gameStates = [] -> fruits v = 0).
Proof.
  unfold Grid.
  destruct (generateGrid gridSize timeStep gameStates) as [cs|] eqn:G.
  2:{ destruct (JS.length gameStates =? 0); [discriminate|].
      destruct (JS.get _ _); discriminate. }
  destruct (Z.eqb_spec (JS.length gameStates) 0) as [E|E]; cbn [bind].
  - intros H. inversion H. cbn. apply length_zero_iff in E. subst.
    repeat split. intros snap. now rewrite get_empty.
  - destruct (JS.get gameStates (effectiveStep timeStep gameStates)) as [g|];
      cbn [bind]; [|discriminate].
    intros H. inversion H. cbn. repeat split.
    + intros snap S. now inversion S.
    + intros ->. now elim E.
Qed.

Lemma Grid_cell (gridSize timeStep : Z) (gameStates : list GameState)
      (v : GridView) (i : Z) :
  Grid gridSize timeStep gameStates = Some v ->
  0 <= i < gridSize * gridSize ->
  exists cell, JS.get (cells v) i = Some cell
               /\ cellOf gridSize timeStep gameStates i = Some cell.
Proof.
  intros H Hi. apply Grid_parts in H as (G & _).
  rewrite generateGrid_cellOf in G.
  assert (N : nth_error (JS.from_length (gridSize * gridSize) (fun i => i))
                        (Z.to_nat i) = Some i).
  { rewrite from_length_nth by lia. f_equal. lia. }
  destruct (mapM_nth _ _ _ G N) as (cell & C1 & C2).
  exists cell. split; [|exact C2].
  unfold JS.get. destruct (Z.ltb_spec i 0); [lia|exact C1].
Qed.

Lemma cellOf_parts (gridSize timeStep : Z) (gameStates : list GameState)
      (i : Z) (cell : Cell) :
  cellOf gridSize timeStep gameStates i = Some cell ->
  cellClass gridSize timeStep gameStates i = Some (className cell)
  /\ (gameStates = [] -> style cell = None)
  /\ (forall snap,
         JS.get gameStates (effectiveStep timeStep gameStates) = Some snap ->
         style cell
         = if negb (JS.indexOf (snake snap) i =? -1)
           then Some (JS.get
                        (rev (JS.from_length
                                ((gridSize - 2) * (gridSize - 2))
                                (fun k => snakeColor
                                            (k + 1)
                                            ((gridSize - 2) * (gridSize - 2)))))
                        (JS.indexOf (snake snap) i))
           else None).
Proof.
  unfold cellOf. cbn zeta.
  destruct (Z.eqb_spec (JS.length gameStates) 0) as [E|E]; cbn [bind].
  - apply length_zero_iff in E. subst gameStates.
    destruct (cellClass gridSize timeStep [] i) as [c|]; cbn [bind];
      [|discriminate].
    intros H. inversion H. cbn. repeat split.
    intros snap. now rewrite get_empty.
  - destruct (JS.get gameStates (effectiveStep timeStep gameStates)) as [g|];
      cbn [bind]; [|discriminate].
    destruct (cellClass gridSize timeStep gameStates i) as [c|]; cbn [bind];
      [|discriminate].
    intros H. inversion H. cbn. repeat split.
    + intros ->. now elim E.
    + intros snap S. now inversion S.
Qed.

Lemma cell_coordinates (g r c : Z) :
  0 < g -> 0 <= r < g -> 0 <= c < g ->
  (r * g + c) / g = r /\ Z.rem (r * g + c) g = c
  /\ 0 <= r * g + c < g * g.
Proof.
  intros Hg Hr Hc. split; [|split].
  - rewrite Z.div_add_l, Z.div_small by lia. lia.
  - rewrite Z.rem_mod_nonneg by nia.
    rewrite Z.add_comm, Z.mod_add, Z.mod_small by lia. reflexivity.
  - nia.
Qed.

(** The wall test of [cellClass]. *)
Lemma cellClass_spec (gridSize timeStep : Z) (gameStates : list GameState)
      (i : Z) (cls : CellClass) :
  cellClass gridSize timeStep gameStates i = Some cls ->
  (cls = Wall <-> onBorder gridSize i = true)
  /\ (forall snap,
         JS.get gameStates (effectiveStep timeStep gameStates) = Some snap ->
         (cls = Fruit <-> onBorder gridSize i = false /\ i = fruit snap))
  /\ (gameStates = [] -> cls <> Fruit)
  /\ (cls = GrassLight -> Z.rem i 2 = 0)
  /\ (cls = GrassDark -> Z.rem i 2 <> 0).
Proof.
  unfold cellClass. fold (onBorder gridSize i).
  destruct (onBorder gridSize i).
  - intros K. inversion K. repeat split; try discriminate; try tauto.
    + intros [C _]. discriminate C.
  - destruct (Z.gtb_spec (JS.length gameStates) 0) as [L|L].
    + destruct (JS.get gameStates (effectiveStep timeStep gameStates))
        as [g|]; cbn [bind]; [|discriminate].
      destruct (Z.eqb_spec i (fruit g)) as [Fi|Fi];
        [|destruct (Z.eqb_spec (Z.rem i 2) 0) as [E2|E2]];
        intros K; inversion K;
        (split; [split; discriminate|]);
        (split; [intros snap S; inversion S; subst snap;
                 split; [try discriminate; now split
                        |try reflexivity; intros [_ C]; now elim Fi]|]);
        (split; [intros ->; cbn in L; lia|]);
        split; intros C; try discriminate C; assumption.
    + cbn [bind].
      assert (E0 : gameStates = []).
      { apply length_zero_iff. pose proof (length_nonneg gameStates). lia. }
      subst gameStates.
      destruct (Z.eqb_spec (Z.rem i 2) 0) as [E2|E2];
        intros K; inversion K;
        (split; [split; discriminate|]);
        (split; [intros snap S; rewrite get_empty in S; discriminate|]);
        (split; [intros _; discriminate|]);
        split; intros C; try discriminate C; assumption.
Qed.

(** C3. For a cursor that is not negative, the index a lane is rendered at is
    [min(cursor, length - 1)]: it lies inside a non-empty snapshot sequence,
    and once the cursor has passed the end it is the index of the last
    snapshot.  Rendering reads no [undefined] snapshot, so it returns a view;
    for an empty sequence that view has no fruit cell and no coloured body
    cell.  The view returned shows [min(cursor, length - 1)] as "Moves" and
    has [gridSize * gridSize] cells, the empty lane included.  For a lane
    that is not empty, "Fruits" is the snake length of the snapshot at that
    index minus 1, and every cell is drawn from that snapshot: wall on the
    border, fruit exactly off the border at the snapshot's fruit index,
    coloured exactly when its index is in the snapshot's snake, grass light
    on even and dark on odd indices.  For the empty lane "Fruits" is 0 and
    every cell is a wall or grass without colour. *)
Theorem Grid_renders_within_sequence :
  forall (gridSize timeStep : Z) (gameStates : list GameState),
    0 <= timeStep ->
    effectiveStep timeStep gameStates = Z.min timeStep (JS.length gameStates - 1)
    /\ (gameStates <> [] ->
        0 <= effectiveStep timeStep gameStates < JS.length gameStates
        /\ (exists g, JS.get gameStates (effectiveStep timeStep gameStates) = Some g)
        /\ (JS.length gameStates <= timeStep ->
            effectiveStep timeStep gameStates = JS.length gameStates - 1))
    /\ (exists v, Grid gridSize timeStep gameStates = Some v)
    /\ (gameStates = [] ->
        exists v, Grid gridSize timeStep gameStates = Some v
                  /\ Forall (fun c => className c <> Fruit /\ style c = None)
                            (cells v))
    /\ (exists v,
          Grid gridSize timeStep gameStates = Some v
          /\ moves v = Z.min timeStep (JS.length gameStates - 1)
          /\ JS.length (cells v) = gridSize * gridSize
          /\ (gameStates = [] ->
              fruits v = 0
              /\ forall i : Z,
                  0 <= i < gridSize * gridSize ->
                  exists cell,
                    JS.get (cells v) i = Some cell
                    /\ (className cell = Wall <-> onBorder gridSize i = true)
                    /\ className cell <> Fruit
                    /\ (className cell = GrassLight -> Z.rem i 2 = 0)
                    /\ (className cell = GrassDark -> Z.rem i 2 <> 0)
                    /\ style cell = None)
          /\ (forall snap : GameState,
                 JS.get gameStates
                        (Z.min timeStep (JS.length gameStates - 1)) = Some snap ->
                 fruits v = JS.length (snake snap) - 1
                 /\ forall i : Z,
                     0 <= i < gridSize * gridSize ->
                     exists cell,
                       JS.get (cells v) i = Some cell
                       /\ (className cell = Wall <-> onBorder gridSize i = true)
                       /\ (className cell = Fruit <->
                           onBorder gridSize i = false /\ i = fruit snap)
                       /\ (className cell = GrassLight -> Z.rem i 2 = 0)
                       /\ (className cell = GrassDark -> Z.rem i 2 <> 0)
                       /\ (style cell <> None <-> In i (snake snap)))).
Proof.
  intros gridSize timeStep gameStates Ht. split; [apply effectiveStep_min|].
  split; [|split; [|split]].
  - intros Hne. pose proof (effectiveStep_in_range Ht Hne) as R.
    split; [exact R|]. split; [now apply get_in_range|].
    intros Hge. rewrite effectiveStep_min. lia.
  - now apply Grid_total.
  - intros ->. apply Grid_empty.
  - destruct (Grid_total gridSize gameStates Ht) as [v G]. exists v.
    split; [exact G|].
    destruct (@Grid_parts _ _ _ _ G) as (GG & Mv & Fv & F0).
    split; [now rewrite Mv, effectiveStep_min|]. split.
    { rewrite generateGrid_cellOf in GG. apply mapM_length in GG.
      unfold JS.length. rewrite GG, from_length_length.
      pose proof (Z.square_nonneg gridSize). lia. }
    split.
    + intros E0. split; [now apply F0|]. intros i Hi.
      destruct (@Grid_cell _ _ _ _ _ G Hi) as (cell & C1 & C2).
      exists cell. split; [exact C1|].
      apply cellOf_parts in C2 as (K & S0 & _).
      apply cellClass_spec in K as (W & _ & E & GL & GD).
      repeat split; try apply W; auto.
    + intros snap S. rewrite <- effectiveStep_min in S.
      split; [now apply Fv|]. intros i Hi.
      destruct (@Grid_cell _ _ _ _ _ G Hi) as (cell & C1 & C2).
      exists cell. split; [exact C1|].
      apply cellOf_parts in C2 as (K & _ & St). specialize (St snap S).
      apply cellClass_spec in K as (W & F & _ & GL & GD).
      split; [exact W|]. split; [exact (F snap S)|].
      split; [exact GL|]. split; [exact GD|].
      rewrite St.
      destruct (indexOf_spec (snake snap) i) as [[E NI] | (L & _ & I)].
      * rewrite E. cbn. split; [congruence|contradiction].
      * assert (NE : (JS.indexOf (snake snap) i =? -1) = false)
          by (apply Z.eqb_neq; lia).
        rewrite NE. cbn. split; [intros _; exact I|discriminate].
Qed.

Lemma Grid_renders_within_sequence_witness :
  0 <= 7
  /\ effectiveStep 7 [mkGameState [12; 11] 6 false true;
                      mkGameState [7; 12] 6 false true] = 1
  /\ (exists v, Grid 5 7 [mkGameState [12; 11] 6 false true;
                          mkGameState [7; 12] 6 false true] = Some v)
  /\ (exists v, Grid 5 7 [mkGameState [12; 11] 6 false true;
                          mkGameState [7; 12] 6 false true] = Some v
                /\ moves v = 1 /\ fruits v = 1
                /\ JS.length (cells v) = 25).
Proof.
  split; [lia|].
  destruct (@Grid_renders_within_sequence 5 7
              [mkGameState [12; 11] 6 false true;
               mkGameState [7; 12] 6 false true])
    as (E & _ & T & _ & (v & G & M & L & _ & S)); [lia|].
  split; [rewrite E; reflexivity|]. split; [exact T|].
  exists v. split; [exact G|]. split; [exact M|].
  split; [|exact L].
  exact (proj1 (S (mkGameState [7; 12] 6 false true) eq_refl)).
Defined.

(** X3. The view of a grid of positive size has [gridSize * gridSize] cells.
    The cell of row [r] and column [c] is a wall exactly on the border (first
    or last row or column); it is the fruit exactly when it is off the border
    and is the fruit cell of the snapshot shown, so a fruit on the border is
    drawn as wall; every other cell is grass, light on even indices and dark
    on odd ones. *)
Theorem Grid_classifies_cells :
  forall (gridSize timeStep : Z) (gameStates : list GameState) (v : GridView),
    0 < gridSize ->
    Grid gridSize timeStep gameStates = Some v ->
    JS.length (cells v) = gridSize * gridSize
    /\ forall r c : Z,
        0 <= r < gridSize -> 0 <= c < gridSize ->
        let i := r * gridSize + c in
        let border := r = 0 \/ r = gridSize - 1 \/ c = 0 \/ c = gridSize - 1 in
        exists cell,
          JS.get (cells v) i = Some cell
          /\ (className cell = Wall <-> border)
          /\ (forall snap,
                 JS.get gameStates (effectiveStep timeStep gameStates)
                 = Some snap ->
                 (className cell = Fruit <-> ~ border /\ i = fruit snap))
          /\ (gameStates = [] -> className cell <> Fruit)
          /\ (className cell = GrassLight -> i mod 2 = 0)
          /\ (className cell = GrassDark -> i mod 2 = 1).
Proof.
  intros gridSize timeStep gameStates v Hg H. split.
  - apply Grid_parts in H as (G & _). rewrite generateGrid_cellOf in G.
    apply mapM_length in G. unfold JS.length.
    rewrite G, from_length_length. nia.
  - intros r c Hr Hc i border.
    destruct (@cell_coordinates gridSize r c Hg Hr Hc) as (Er & Ec & Hi).
    fold i in Er, Ec, Hi.
    destruct (@Grid_cell _ _ _ _ _ H Hi) as (cell & C1 & C2).
    exists cell. split; [exact C1|].
    apply cellOf_parts in C2 as (K & _).
    apply cellClass_spec in K as (W & F & E & GL & GD).
    assert (B : onBorder gridSize i = true <-> border).
    { unfold onBorder. rewrite Er, Ec, !orb_true_iff, !Z.eqb_eq.
      subst border. tauto. }
    assert (P : Z.rem i 2 = i mod 2) by (apply Z.rem_mod_nonneg; lia).
    pose proof (Z.mod_pos_bound i 2 eq_refl) as M2.
    split; [now rewrite W|]. split; [|split; [exact E|split]].
    + intros snap S. rewrite (F snap S), <- B.
      destruct (onBorder gridSize i); intuition congruence.
    + intros C. apply GL in C. lia.
    + intros C. apply GD in C. lia.
Qed.

Lemma Grid_classifies_cells_witness :
  let s := mkGameState [12; 11] 6 false false in
  exists v cell,
    Grid 5 0 [s] = Some v
    /\ JS.length (cells v) = 25
    /\ JS.get (cells v) (1 * 5 + 1) = Some cell
    /\ className cell = Fruit.
Proof.
  intros s.
  destruct (Grid 5 0 [s]) as [v|] eqn:G; [|discriminate G].
  destruct (@Grid_classifies_cells 5 0 [s] v eq_refl G) as (L & C).
  destruct (C 1 1 ltac:(lia) ltac:(lia)) as (cell & C1 & _ & F & _).
  exists v, cell. split; [reflexivity|]. split; [exact L|].
  split; [exact C1|].
  apply (F s eq_refl). split; [lia|reflexivity].
Defined.



(** X4. The numbers under a grid agree with the ledger: for every entry of
    the ledger of a reachable state, a grid of any size showing the entry's
    replay with the cursor at or past the entry's move count renders, and
    displays the entry's move count as "Moves" and its fruit count as
    "Fruits". *)
Theorem Grid_at_the_end_shows_the_entry_numbers :
  forall (es : list Event) (row : nat) (res : TableResult.t)
         (gridSize timeStep : Z),
    nth_error (tableRes (app (run es))) row = Some res ->
    TableResult.moveCount res <= timeStep ->
    exists v,
      Grid gridSize timeStep (TableResult.replay res) = Some v
      /\ moves v = TableResult.moveCount res
      /\ fruits v = TableResult.fruitCount res.
Proof.
  intros es row res gridSize timeStep E Hm.
  pose proof (@Forall_nth_error _ _ _ _ _ (run_summaries es) E) as S.
  cbn beta in S. unfold summaryOf in S.
  pose proof (createTableResult_replay _ _ _ _ S) as [_ Hne].
  destruct (createTableResult_fields _ _ _ _ _ S)
    as (_ & _ & _ & _ & M & _).
  pose proof (length_nonneg (TableResult.replay res)) as L0.
  assert (L1 : JS.length (TableResult.replay res) <> 0)
    by now rewrite length_zero_iff.
  assert (T0 : 0 <= timeStep) by lia.
  destruct (Grid_total gridSize (TableResult.replay res) T0) as [v G].
  exists v. split; [exact G|].
  destruct (@Grid_parts _ _ _ _ G) as (_ & Mv & Fv & _).
  assert (Ef : effectiveStep timeStep (TableResult.replay res)
               = JS.length (TableResult.replay res) - 1)
    by (rewrite effectiveStep_min; lia).
  rewrite Ef in Mv, Fv. split; [lia|].
  revert S. unfold createTableResult.
  destruct (JS.get (TableResult.replay res)
                   (JS.length (TableResult.replay res) - 1)) as [g|] eqn:Gg;
    cbn [bind]; [|discriminate].
  intros S. rewrite (Fv g eq_refl). inversion S as [S']. rewrite <- S' at 2.
  reflexivity.
Qed.

Lemma Grid_at_the_end_shows_the_entry_numbers_witness :
  let s := mkGameState [12; 11] 6 false true in
  let es := [RunClicked; Responded 0 [s; s]] in
  exists res v,
    nth_error (tableRes (app (run es))) 0 = Some res
    /\ TableResult.moveCount res <= 4
    /\ Grid 5 4 (TableResult.replay res) = Some v
    /\ moves v = 1 /\ fruits v = 1.
Proof.
  intros s es.
  destruct (nth_error (tableRes (app (run es))) 0) as [res|] eqn:E;
    [|discriminate E].
  assert (M : TableResult.moveCount res = 1) by now inversion E.
  assert (F : TableResult.fruitCount res = 1) by now inversion E.
  assert (H : TableResult.moveCount res <= 4) by (rewrite M; lia).
  destruct (@Grid_at_the_end_shows_the_entry_numbers es 0 res 5 4 E H)
    as (v & G & Mv & Fv).
  exists res, v. split; [reflexivity|]. split; [exact H|].
  split; [exact G|]. split; congruence.
Defined.

(** ** Adding and removing the second grid *)

(** X15. In a reachable state, adding the second grid mounts its
    [ModelSelect], whose effect replaces the training budget of lane 2 by
    the default for its agent; removing the second grid changes no training
    budget.  Either way the agents and seeds stay, and two presses give back
    the toggle as it was with both lanes empty. *)
Theorem toggling_second_grid_reapplies_default_budget :
  forall es : list Event,
    let w := run es in
    let w' := handle ToggleClicked w in
    (twoGrids (app w) = false ->
     eps2 (app w') = epsEffect (agent2 (app w)) (eps2 (app w)))
    /\ (twoGrids (app w) = true -> eps2 (app w') = eps2 (app w))
    /\ eps1 (app w') = eps1 (app w)
    /\ (let w2 := handle ToggleClicked w' in
        twoGrids (app w2) = twoGrids (app w)
        /\ agent1 (app w2) = agent1 (app w) /\ agent2 (app w2) = agent2 (app w)
        /\ seed1 (app w2) = seed1 (app w) /\ seed2 (app w2) = seed2 (app w)
        /\ gameStates1 (app w2) = [] /\ gameStates2 (app w2) = []).
Proof.
  intros es w w'. subst w'. cbn [handle].
  rewrite !settle_eps1, !settle_eps2, !settle_twoGrids, !settle_agent1,
    !settle_agent2, !settle_seed1, !settle_seed2, !settle_gameStates1,
    !settle_gameStates2.
  cbn. rewrite !String.eqb_refl, !settle_twoGrids. cbn.
  rewrite negb_involutive.
  split; [intros ->; reflexivity|].
  split; [intros ->; reflexivity|].
  repeat split;
    rewrite ?settle_agent1, ?settle_agent2, ?settle_seed1, ?settle_seed2;
    reflexivity.
Qed.

Lemma toggling_second_grid_reapplies_default_budget_witness :
  let es := [ToggleClicked; AgentChosen Lane2 "deep-ql";
             EpsChosen Lane2 "3k"; ToggleClicked] in
  twoGrids (app (run es)) = false
  /\ eps2 (app (run es)) = "3k"
  /\ eps2 (app (handle ToggleClicked (run es))) = "50k".
Proof.
  intros es.
  assert (T : twoGrids (app (run es)) = false) by reflexivity.
  split; [exact T|]. split; [reflexivity|].
  destruct (toggling_second_grid_reapplies_default_budget es) as (E & _).
  rewrite (E T). reflexivity.
Defined.

(** ** The training budget of lane 1 fits its agent *)

Lemma epsEffect_fits (v eps : string) (old : string) :
  v = "a*" \/ v = "apx-ql" \/ v = "deep-ql" ->
  fits old eps -> old <> v -> fits v (epsEffect v eps).
Proof.
  intros [-> | [-> | ->]] F N.
  - left. now split.
  - right; left. split; [reflexivity|].
    destruct epsEffect_heavy with (agent := "apx-ql") (eps := eps) as [M _];
      [discriminate|reflexivity|exact M].
  - right; right. split; [reflexivity|].
    assert (M : JS.mem ["1k"; "3k"; "5k"] eps = false).
    { destruct F as [[_ ->] | [[_ H] | [E _]]]; [reflexivity| |congruence].
      unfold JS.mem in *. cbn [existsb] in *.
      rewrite !orb_true_iff, !String.eqb_eq in H.
      destruct H as [-> | [-> | [-> | H]]]; try reflexivity; discriminate H. }
    unfold epsEffect. cbn [String.eqb Ascii.eqb Bool.eqb].
    change (JS.includes "deep-ql" "deep") with true. rewrite M. reflexivity.
Qed.

(** X16. Along events that carry values the rendered controls offer, other
    than restoring an entry into lane 1, the training budget of lane 1 always
    fits its agent: "N/A" for "a*", one of 50k/75k/100k for "apx-ql", one of
    1k/3k/5k for "deep-ql".  So does the first request of every pending
    load. *)
Theorem lane1_budget_fits_its_agent :
  forall w : World,
    usual w ->
    fits (agent1 (app w)) (eps1 (app w))
    /\ Forall (fun f => fits (req_agent (requestOf Lane1 (held f)))
                             (req_eps (requestOf Lane1 (held f))))
              (flights w).
Proof.
  induction 1 as [|e w U [F FL] O].
  - split; [left; now split|constructor].
  - assert (K : forall next fl,
               agent1 next = agent1 (app w) -> eps1 next = eps1 (app w) ->
               fits (agent1 (app (settle w next fl)))
                    (eps1 (app (settle w next fl)))).
    { intros next fl A E.
      now rewrite settle_agent1, settle_eps1, A, String.eqb_refl, E. }
    split.
    + destruct e; cbn [handle]; cbn [offered] in O;
        try (apply K; reflexivity).
      * unfold selectAgent. destruct l; cbn [rendered].
        -- rewrite settle_agent1, settle_eps1. cbn.
           destruct (String.eqb_spec (agent1 (app w)) v) as [<-|N];
             [exact F|].
           now apply epsEffect_fits with (old := agent1 (app w)).
        -- destruct (twoGrids (app w)); apply K; reflexivity.
      * unfold selectEps. destruct l; cbn [rendered agentOf andb] in *.
        -- destruct (String.eqb_spec (agent1 (app w)) "a*") as [A|A];
             cbn [negb]; [apply K; reflexivity|].
           rewrite settle_agent1, settle_eps1. cbn. rewrite String.eqb_refl.
           destruct F as [[E _] | [[E _] | [E _]]]; [congruence| |];
             rewrite E in O |- *; cbn in O.
           ++ right; left. now split.
           ++ right; right. now split.
        -- destruct (twoGrids (app w) && _); apply K; reflexivity.
      * unfold seedInput. destruct (rendered l (app w)); destruct l;
          apply K; reflexivity.
      * unfold loadNewGame_resume.
        destruct (nth_error (flights w) k) as [f|]; [|exact F].
        destruct (first f); destruct (createTableResult _ _ _ _ _);
          try exact F; cases; apply K; reflexivity.
      * unfold playOrRestart. cases; apply K; reflexivity.
      * destruct l; [contradiction|].
        destruct (nth_error (tableRes (app w)) row); [|exact F].
        apply K; unfold restore; cases; reflexivity.
      * destruct (timer w); [|exact F].
        apply K; unfold tick; cases; reflexivity.
    + destruct e; cbn [handle]; rewrite ?settle_flights; try exact FL.
      * unfold loadNewGame_start. rewrite settle_flights.
        apply Forall_app. split; [exact FL|]. constructor; [exact F|constructor].
      * unfold loadNewGame_resume.
        destruct (nth_error (flights w) k) as [f|] eqn:Ef; [|exact FL].
        pose proof (@Forall_nth_error _ _ _ _ _ FL Ef) as Hf.
        destruct (first f); destruct (createTableResult _ _ _ _ _);
          cbn [flights]; cases; rewrite ?settle_flights;
          try (now apply Forall_drop_nth);
          apply Forall_put_nth; [exact Hf|exact FL].
      * destruct (nth_error (tableRes (app w)) row);
          rewrite ?settle_flights; exact FL.
      * destruct (timer w); rewrite ?settle_flights; exact FL.
Qed.

Lemma lane1_budget_fits_its_agent_witness :
  let w := handle (EpsChosen Lane1 "3k")
             (handle (AgentChosen Lane1 "deep-ql") boot) in
  usual w /\ agent1 (app w) = "deep-ql" /\ eps1 (app w) = "3k"
  /\ fits (agent1 (app w)) (eps1 (app w)).
Proof.
  intros w.
  assert (U : usual w).
  { unfold w. apply usual_step; [apply usual_step; [apply usual_boot|]|].
    - right; right. reflexivity.
    - reflexivity. }
  split; [exact U|]. split; [reflexivity|]. split; [reflexivity|].
  apply (proj1 (lane1_budget_fits_its_agent U)).
Defined.

Lemma empty_response_changes_nothing_witness :
  let w := handle RunClicked boot in
  nth_error (flights w) 0 <> None
  /\ flights (handle (Responded 0 []) w) = []
  /\ loading (app (handle (Responded 0 []) w)) = true.
Proof.
  intros w.
  assert (N : nth_error (flights w) 0 <> None) by discriminate.
  destruct (empty_response_changes_nothing w 0) as (A & _ & F & _).
  split; [exact N|]. split.
  - rewrite (F N). reflexivity.
  - rewrite A. reflexivity.
Defined.
